(** * plotter/main.py: the log loader and the two-stage aggregation

    A shallow embedding of the script [plotter/main.py].  The script reads
    every line of every [*.log] file as a JSON document, keeps the records
    that carry [fields.latency_in_nanos], converts units, and reduces the
    resulting table with two pandas [groupby] calls.

    Python values are an inductive type, Python exceptions an error monad,
    Python floats are IEEE 754 binary64 numbers ([SpecFloat], precision 53,
    [emax] 1024), Python integers are [Z].

    The file has the definitions first: Python values and conversions, the
    record loop, a JSON decoder, the table and its grouped reductions, the
    aggregation in the words of the specification, and sample inputs.
    The facts and the statements C1 to C10 follow. *)

From Stdlib Require Import ZArith List Bool Ascii String Lia.
From Stdlib Require Import Floats.SpecFloat.
From stdpp Require Import base list sets sorting strings.

Local Open Scope Z_scope.
Set Warnings "-register-all,-clear-no-such-hyp".

(** ** Exceptions *)

Inductive exn : Type :=
  | JSONDecodeError
  | KeyError (k : string)
  | TypeError
  | ValueError
  | OverflowError
  | ZeroDivisionError.

Inductive result (A : Type) : Type :=
  | Ok (a : A)
  | Raise (e : exn).
Arguments Ok {A} a.
Arguments Raise {A} e.

Definition bind {A B : Type} (r : result A) (k : A -> result B) : result B :=
  match r with
  | Ok a => k a
  | Raise e => Raise e
  end.

Notation "'let*' x ':=' r 'in' k" := (bind r (fun x => k))
  (at level 10, x name, r at level 100, k at level 200).

Definition raises {A : Type} (r : result A) : Prop := exists e, r = Raise e.

(** ** Python floats: binary64 *)

Module Float.
Definition prec : Z := 53.
Definition emax : Z := 1024.

Definition float : Type := spec_float.

Definition zero : float := S754_zero false.
Definition nan : float := S754_nan.
Definition add : float -> float -> float := SFadd prec emax.
Definition sub : float -> float -> float := SFsub prec emax.
Definition div : float -> float -> float := SFdiv prec emax.

(** Conversion of an integer, round to nearest even. *)
Definition of_Z (z : Z) : float := binary_normalize prec emax z 0 false.

Definition is_nan (x : float) : bool :=
  match x with S754_nan => true | _ => false end.

Definition valid (x : float) : bool := valid_binary prec emax x.
End Float.
Abbreviation float := Float.float.

(** ** Python values, as [json.loads] produces them *)

Inductive pyval : Type :=
  | PNone
  | PBool (b : bool)
  | PInt (z : Z)
  | PFloat (x : float)
  | PStr (s : string)
  | PList (l : list pyval)
  | PDict (d : list (string * pyval)).

(** A dict keeps one entry per key; [dict_get] is the lookup. *)
Fixpoint dict_get (k : string) (d : list (string * pyval)) : option pyval :=
  match d with
  | [] => None
  | (k', v) :: d' => if String.eqb k k' then Some v else dict_get k d'
  end.

(** [v[k]] for a string key [k]. *)
Definition getitem (v : pyval) (k : string) : result pyval :=
  match v with
  | PDict d =>
      match dict_get k d with
      | Some x => Ok x
      | None => Raise (KeyError k)
      end
  | _ => Raise TypeError
  end.

Fixpoint str_contains (needle hay : string) : bool :=
  String.prefix needle hay ||
  match hay with
  | EmptyString => false
  | String _ hay' => str_contains needle hay'
  end.

Definition is_str (k : string) (v : pyval) : bool :=
  match v with
  | PStr s => String.eqb k s
  | _ => false
  end.

(** [k in v] for a string [k]: key membership on a dict, element equality
    on a list, substring on a string, [TypeError] elsewhere. *)
Definition contains (k : string) (v : pyval) : result bool :=
  match v with
  | PDict d => Ok (bool_decide (is_Some (dict_get k d)))
  | PList l => Ok (existsb (is_str k) l)
  | PStr s => Ok (str_contains k s)
  | _ => Raise TypeError
  end.

(** ** Number conversions *)

(** [a / b] on two integers: the correctly rounded quotient, never computed
    through an intermediate rounding of [a] or [b]. *)
Definition int_truediv (a b : Z) : result float :=
  match b, a with
  | Z0, _ => Raise ZeroDivisionError
  | _, Z0 => Ok (S754_zero (b <? 0))
  | _, _ =>
      let '(q, e, l) :=
        SFdiv_core_binary Float.prec Float.emax (Z.abs a) 0 (Z.abs b) 0 in
      match binary_round_aux Float.prec Float.emax
              (xorb (a <? 0) (b <? 0)) q e l with
      | S754_infinity _ => Raise OverflowError
      | x => Ok x
      end
  end.

(** [v / d] for a JSON value [v] and an integer constant [d]. *)
Definition truediv (v : pyval) (d : Z) : result float :=
  match v with
  | PInt z => int_truediv z d
  | PBool b => int_truediv (Z.b2z b) d
  | PFloat x =>
      if d =? 0 then Raise ZeroDivisionError
      else Ok (Float.div x (Float.of_Z d))
  | _ => Raise TypeError
  end.

(** [int(x)] on a float truncates toward zero. *)
Definition float_trunc (x : float) : result Z :=
  match x with
  | S754_nan => Raise ValueError
  | S754_infinity _ => Raise OverflowError
  | S754_zero _ => Ok 0
  | S754_finite s m e =>
      let a := Z.shiftl (Zpos m) e in
      Ok (if s then - a else a)
  end.

(** The white space that [int] strips from a string: the space and the
    characters 9 to 13. *)
Definition is_space (c : ascii) : bool :=
  let n := N_of_ascii c in
  ((n =? 32) || ((9 <=? n) && (n <=? 13)))%N.

Definition digit_of (c : ascii) : option Z :=
  let n := Z.of_N (N_of_ascii c) in
  if (48 <=? n) && (n <=? 57) then Some (n - 48) else None.

Fixpoint lstrip (s : string) : string :=
  match s with
  | String c s' => if is_space c then lstrip s' else s
  | EmptyString => EmptyString
  end.

Fixpoint rstrip (s : string) : string :=
  match s with
  | String c s' =>
      match rstrip s' with
      | EmptyString => if is_space c then EmptyString else String c EmptyString
      | r => String c r
      end
  | EmptyString => EmptyString
  end.

(** Digits after the first one; an underscore must sit between two digits. *)
Fixpoint int_digits (acc : Z) (s : string) : option Z :=
  match s with
  | EmptyString => Some acc
  | String c s' =>
      match digit_of c with
      | Some d => int_digits (10 * acc + d) s'
      | None =>
          if Ascii.eqb c "_" then
            match s' with
            | String c' s'' =>
                match digit_of c' with
                | Some d => int_digits (10 * acc + d) s''
                | None => None
                end
            | EmptyString => None
            end
          else None
      end
  end.

Definition int_unsigned (s : string) : option Z :=
  match s with
  | String c s' =>
      match digit_of c with
      | Some d => int_digits d s'
      | None => None
      end
  | EmptyString => None
  end.

(** [int(s)] on a string, base 10.  The digits and the white space are
    those of ASCII: a string that writes its digits or its white space in
    another script, which [int] converts as well, is not modelled and is
    rejected here. *)
Definition int_of_str (s : string) : result Z :=
  let body := rstrip (lstrip s) in
  let parsed :=
    match body with
    | String "-" s' => option_map Z.opp (int_unsigned s')
    | String "+" s' => int_unsigned s'
    | _ => int_unsigned body
    end in
  match parsed with
  | Some z => Ok z
  | None => Raise ValueError
  end.

(** [int(v)]. *)
Definition py_int (v : pyval) : result Z :=
  match v with
  | PInt z => Ok z
  | PBool b => Ok (Z.b2z b)
  | PFloat x => float_trunc x
  | PStr s => int_of_str s
  | _ => Raise TypeError
  end.

(** ** The record loop (main.py, lines 9 to 25) *)

(** The four parallel sequences. *)
Record columns : Type := Columns {
  frames : list pyval;
  object_counts : list pyval;
  latencies : list float;
  sizes : list float
}.

Definition no_columns : columns := Columns [] [] [] [].

Definition append_frame (st : columns) (v : pyval) : columns :=
  Columns (frames st ++ [v]) (object_counts st) (latencies st) (sizes st).
Definition append_object_count (st : columns) (v : pyval) : columns :=
  Columns (frames st) (object_counts st ++ [v]) (latencies st) (sizes st).
Definition append_latency (st : columns) (x : float) : columns :=
  Columns (frames st) (object_counts st) (latencies st ++ [x]) (sizes st).
Definition append_size (st : columns) (x : float) : columns :=
  Columns (frames st) (object_counts st) (latencies st) (sizes st ++ [x]).

Section Loader.
(** [json.loads] is the library's parser; [None] stands for its
    [JSONDecodeError], the exception of a text that is not JSON.  The
    limits of the parser on a text that is JSON (the depth of the nesting,
    the number of digits of an integer) are not modelled. *)
Variable json_loads : string -> option pyval.

Definition loads (line : string) : result pyval :=
  match json_loads line with
  | Some v => Ok v
  | None => Raise JSONDecodeError
  end.

(** One iteration of the body of [for line in f]. *)
Definition process_line (st : columns) (line : string) : result columns :=
  let* data := loads line in
  let* fields := getitem data "fields" in
  let* present := contains "latency_in_nanos" fields in
  if negb present then Ok st
  else
    let* span := getitem data "span" in
    let* frame_count := getitem span "frame_count" in
    let st := append_frame st frame_count in
    let* span := getitem data "span" in
    let* object_count := getitem span "object_count" in
    let st := append_object_count st object_count in
    let* fields := getitem data "fields" in
    let* nanos := getitem fields "latency_in_nanos" in
    let* n := py_int nanos in
    let* ms := int_truediv n 1000000 in
    let st := append_latency st ms in
    let* fields := getitem data "fields" in
    let* msg_len := getitem fields "msg_len" in
    let* kb := truediv msg_len 1024 in
    Ok (append_size st kb).

(** [for line in f]: the first exception ends the run. *)
Fixpoint read_lines (st : columns) (f : list string) : result columns :=
  match f with
  | [] => Ok st
  | line :: f' =>
      let* st' := process_line st line in
      read_lines st' f'
  end.

(** [for input_file in input_files]; a file is its list of lines. *)
Fixpoint read_files (st : columns) (input_files : list (list string))
  : result columns :=
  match input_files with
  | [] => Ok st
  | f :: rest =>
      let* st' := read_lines st f in
      read_files st' rest
  end.

Definition load (input_files : list (list string)) : result columns :=
  read_files no_columns input_files.
End Loader.

(** One row appended to the four sequences at once. *)
Definition push (st : columns) (fc oc : pyval) (ms kb : float) : columns :=
  Columns (frames st ++ [fc]) (object_counts st ++ [oc])
          (latencies st ++ [ms]) (sizes st ++ [kb]).

(** What the statements after the presence check compute from a record. *)
Definition extract (data : pyval) : result (pyval * pyval * float * float) :=
  let* span := getitem data "span" in
  let* frame_count := getitem span "frame_count" in
  let* object_count := getitem span "object_count" in
  let* fields := getitem data "fields" in
  let* nanos := getitem fields "latency_in_nanos" in
  let* n := py_int nanos in
  let* ms := int_truediv n 1000000 in
  let* msg_len := getitem fields "msg_len" in
  let* kb := truediv msg_len 1024 in
  Ok (frame_count, object_count, ms, kb).

(** ** A concrete [json.loads]

    The decoder of the [json] module on byte strings: a text is the UTF-8
    encoding of the Python string, and so is every decoded string.  It
    instantiates the parameter [json_loads] of the loader wherever a
    statement is evaluated on actual log lines.  It decodes an integer of
    any number of digits and a document of any depth: the limits at which
    CPython raises [ValueError] and [RecursionError] are not modelled. *)

Module Json.
Definition is_ws (c : ascii) : bool :=
  let n := N_of_ascii c in
  ((n =? 32) || (n =? 9) || (n =? 10) || (n =? 13))%N.

Fixpoint skip_ws (s : string) : string :=
  match s with
  | String c s' => if is_ws c then skip_ws s' else s
  | EmptyString => EmptyString
  end.

Definition hex_of (c : ascii) : option Z :=
  let n := Z.of_N (N_of_ascii c) in
  if (48 <=? n) && (n <=? 57) then Some (n - 48)
  else if (65 <=? n) && (n <=? 70) then Some (n - 55)
  else if (97 <=? n) && (n <=? 102) then Some (n - 87)
  else None.

Definition hex4 (a b c d : ascii) : option Z :=
  match hex_of a, hex_of b, hex_of c, hex_of d with
  | Some x, Some y, Some z, Some w => Some (((x * 16 + y) * 16 + z) * 16 + w)
  | _, _, _, _ => None
  end.

Definition byte (z : Z) : ascii := ascii_of_N (Z.to_N z).

(** UTF-8 encoding of a code point, prepended to [k]. *)
Definition utf8 (cp : Z) (k : string) : string :=
  if cp <? 128 then String (byte cp) k
  else if cp <? 2048 then
    String (byte (192 + cp / 64)) (String (byte (128 + cp mod 64)) k)
  else if cp <? 65536 then
    String (byte (224 + cp / 4096))
      (String (byte (128 + (cp / 64) mod 64))
         (String (byte (128 + cp mod 64)) k))
  else
    String (byte (240 + cp / 262144))
      (String (byte (128 + (cp / 4096) mod 64))
         (String (byte (128 + (cp / 64) mod 64))
            (String (byte (128 + cp mod 64)) k))).

Definition dquote : ascii := byte 34.

Definition simple_escape (c : ascii) : option ascii :=
  if Ascii.eqb c dquote then Some dquote
  else match c with
       | "\"%char => Some "\"%char
       | "/"%char => Some "/"%char
       | "b"%char => Some (byte 8)
       | "f"%char => Some (byte 12)
       | "n"%char => Some (byte 10)
       | "r"%char => Some (byte 13)
       | "t"%char => Some (byte 9)
       | _ => None
       end.

Definition is_high (u : Z) : bool := (55296 <=? u) && (u <=? 56319).
Definition is_low (u : Z) : bool := (56320 <=? u) && (u <=? 57343).

(** A low surrogate escape at the head of [s], with the text after it. *)
Definition low_escape (s : string) : option (Z * string) :=
  match s with
  | String "\" (String "u" (String a (String b (String c (String d r))))) =>
      match hex4 a b c d with
      | Some u => if is_low u then Some (u, r) else None
      | None => None
      end
  | _ => None
  end.

Definition cons_to (f : string -> string) (p : option (string * string))
  : option (string * string) :=
  option_map (fun p => (f (fst p), snd p)) p.

(** The characters of a string literal after its opening quote, up to the
    closing quote; the rest of the text comes with them. *)
Fixpoint scan_string (s : string) : option (string * string) :=
  match s with
  | EmptyString => None
  | String "\" (String "u" (String a (String b (String c (String d rest))))) =>
      match hex4 a b c d with
      | None => None
      | Some u =>
          match rest with
          | String _ (String _ (String _ (String _ (String _
              (String _ rest'))))) =>
              match (if is_high u then low_escape rest else None) with
              | Some (u', _) =>
                  cons_to (utf8 (65536 + (u - 55296) * 1024 + (u' - 56320)))
                    (scan_string rest')
              | None => cons_to (utf8 u) (scan_string rest)
              end
          | _ => cons_to (utf8 u) (scan_string rest)
          end
      end
  | String "\" (String e rest) =>
      match simple_escape e with
      | Some c => cons_to (String c) (scan_string rest)
      | None => None
      end
  | String c rest =>
      if Ascii.eqb c dquote then Some (EmptyString, rest)
      else if Ascii.eqb c "\" then None
      else if (N_of_ascii c <? 32)%N then None
      else cons_to (String c) (scan_string rest)
  end.

(** ** Numbers *)

Fixpoint span_digits (acc : Z) (n : nat) (s : string) : Z * nat * string :=
  match s with
  | String c r =>
      match digit_of c with
      | Some d => span_digits (10 * acc + d) (S n) r
      | None => (acc, n, s)
      end
  | EmptyString => (acc, n, s)
  end.

(** The float nearest to [d * 10^e], [d] positive, with sign [neg]. *)
Definition dec_to_float (neg : bool) (d e : Z) : float :=
  match d with
  | Z0 => S754_zero neg
  | _ =>
      if 0 <=? e then
        binary_normalize Float.prec Float.emax
          (if neg then - (d * 10 ^ e) else d * 10 ^ e) 0 false
      else
        let '(q, e', l) :=
          SFdiv_core_binary Float.prec Float.emax d 0 (10 ^ (- e)) 0 in
        binary_round_aux Float.prec Float.emax neg q e' l
  end.

(** The integer part: [0] or a digit string that does not start with [0]. *)
Definition scan_int (s : string) : option (Z * string) :=
  match s with
  | String c r =>
      match digit_of c with
      | Some 0 => Some (0, r)
      | Some d => let '(v, _, r') := span_digits d 1 r in Some (v, r')
      | None => None
      end
  | EmptyString => None
  end.

(** An optional fraction: the digits join the mantissa [v]. *)
Definition scan_frac (v : Z) (s : string) : option (Z * nat * string) :=
  match s with
  | String "." r =>
      let '(v', n, r') := span_digits v 0 r in
      match n with O => None | _ => Some (v', n, r') end
  | _ => None
  end.

Definition scan_exp (s : string) : option (Z * string) :=
  match s with
  | String c r =>
      if Ascii.eqb c "e" || Ascii.eqb c "E" then
        let '(neg, r1) :=
          match r with
          | String "-" r1 => (true, r1)
          | String "+" r1 => (false, r1)
          | _ => (false, r)
          end in
        let '(v, n, r2) := span_digits 0 0 r1 in
        match n with
        | O => None
        | _ => Some (if neg then - v else v, r2)
        end
      else None
  | EmptyString => None
  end.

Definition scan_number (s : string) : option (pyval * string) :=
  let '(neg, s1) :=
    match s with
    | String "-" r => (true, r)
    | _ => (false, s)
    end in
  match scan_int s1 with
  | None => None
  | Some (i, r) =>
      let '(m, nfrac, r1, has_frac) :=
        match scan_frac i r with
        | Some (m, n, r1) => (m, n, r1, true)
        | None => (i, O, r, false)
        end in
      let '(ex, r2, has_exp) :=
        match scan_exp r1 with
        | Some (ex, r2) => (ex, r2, true)
        | None => (0, r1, false)
        end in
      if has_frac || has_exp then
        Some (PFloat (dec_to_float neg m (ex - Z.of_nat nfrac)), r2)
      else Some (PInt (if neg then - i else i), r2)
  end.

Fixpoint strip_prefix (p s : string) : option string :=
  match p, s with
  | EmptyString, _ => Some s
  | String a p', String b s' =>
      if Ascii.eqb a b then strip_prefix p' s' else None
  | _, EmptyString => None
  end.

(** The constants, tried after the number as the scanner does. *)
Definition scan_constant (s : string) : option (pyval * string) :=
  match strip_prefix "null" s with
  | Some r => Some (PNone, r)
  | None =>
  match strip_prefix "true" s with
  | Some r => Some (PBool true, r)
  | None =>
  match strip_prefix "false" s with
  | Some r => Some (PBool false, r)
  | None =>
  match scan_number s with
  | Some p => Some p
  | None =>
  match strip_prefix "NaN" s with
  | Some r => Some (PFloat S754_nan, r)
  | None =>
  match strip_prefix "Infinity" s with
  | Some r => Some (PFloat (S754_infinity false), r)
  | None =>
  match strip_prefix "-Infinity" s with
  | Some r => Some (PFloat (S754_infinity true), r)
  | None => None
  end end end end end end end.

(** A later duplicate of a key replaces the value and keeps the place. *)
Fixpoint dict_set (k : string) (v : pyval) (d : list (string * pyval))
  : list (string * pyval) :=
  match d with
  | [] => [(k, v)]
  | (k', v') :: d' =>
      if String.eqb k k' then (k', v) :: d' else (k', v') :: dict_set k v d'
  end.

(** ** Values

    [fuel] bounds the number of nested calls; [loads] starts with twice
    the length of the text and two more. *)

Fixpoint scan_value (fuel : nat) (s : string) : option (pyval * string) :=
  match fuel with
  | O => None
  | S fuel' =>
      match s with
      | String "{" r =>
          match skip_ws r with
          | String "}" r' => Some (PDict [], r')
          | r' => scan_members fuel' [] r'
          end
      | String "[" r =>
          match skip_ws r with
          | String "]" r' => Some (PList [], r')
          | r' => scan_elements fuel' [] r'
          end
      | String c r =>
          if Ascii.eqb c dquote then
            option_map (fun p => (PStr (fst p), snd p)) (scan_string r)
          else scan_constant s
      | EmptyString => None
      end
  end
(** [s] starts at a key; [d] holds the pairs read so far. *)
with scan_members (fuel : nat) (d : list (string * pyval)) (s : string)
  : option (pyval * string) :=
  match fuel with
  | O => None
  | S fuel' =>
      match s with
      | String c r =>
          if Ascii.eqb c dquote then
            match scan_string r with
            | Some (k, r1) =>
                match skip_ws r1 with
                | String ":" r2 =>
                    match scan_value fuel' (skip_ws r2) with
                    | Some (v, r3) =>
                        match skip_ws r3 with
                        | String "}" r4 => Some (PDict (dict_set k v d), r4)
                        | String "," r4 =>
                            scan_members fuel' (dict_set k v d) (skip_ws r4)
                        | _ => None
                        end
                    | None => None
                    end
                | _ => None
                end
            | None => None
            end
          else None
      | EmptyString => None
      end
  end
(** [s] starts at an element; [l] holds the elements read so far. *)
with scan_elements (fuel : nat) (l : list pyval) (s : string)
  : option (pyval * string) :=
  match fuel with
  | O => None
  | S fuel' =>
      match scan_value fuel' s with
      | Some (v, r) =>
          match skip_ws r with
          | String "]" r' => Some (PList (l ++ [v]), r')
          | String "," r' => scan_elements fuel' (l ++ [v]) (skip_ws r')
          | _ => None
          end
      | None => None
      end
  end.

(** [json.loads]: one value, white space around it, nothing after it. *)
Definition loads (s : string) : option pyval :=
  match scan_value (2 * String.length s + 2) (skip_ws s) with
  | Some (v, r) =>
      match skip_ws r with
      | EmptyString => Some v
      | _ => None
      end
  | None => None
  end.

(** Text with apostrophes in the place of the double quotes of JSON. *)
Fixpoint dq (s : string) : string :=
  match s with
  | String c r => String (if Ascii.eqb c "'" then dquote else c) (dq r)
  | EmptyString => EmptyString
  end.
End Json.

(** ** The table (main.py, line 27) *)

(** A row of [df]: the four columns ['Frame'], ['Object Count'],
    ['Latency (ms)'] and ['Size (KB)']. *)
Record row : Type := Row {
  Frame : Z;
  Object_Count : Z;
  Latency : float;
  Size : float
}.

(** A row once ['Frame'] is dropped. *)
Record AggregatedRow : Type := AggRow {
  object_count : Z;
  latency_ms : float;
  size_kb : float
}.

Definition as_int (v : pyval) : option Z :=
  match v with
  | PInt z => Some z
  | _ => None
  end.

Fixpoint zip_rows (fs os : list pyval) (ls ss : list float)
  : option (list row) :=
  match fs, os, ls, ss with
  | [], [], [], [] => Some []
  | f :: fs', o :: os', l :: ls', s :: ss' =>
      match as_int f, as_int o, zip_rows fs' os' ls' ss' with
      | Some f', Some o', Some rest => Some (Row f' o' l s :: rest)
      | _, _, _ => None
      end
  | _, _, _, _ => None
  end.

Definition same_length (c : columns) : bool :=
  (length (frames c) =? length (object_counts c))%nat &&
  (length (frames c) =? length (latencies c))%nat &&
  (length (frames c) =? length (sizes c))%nat.

(** [pd.DataFrame({...})] on the four sequences: [ValueError] when their
    lengths differ.  The two key columns are modelled at integer values,
    the type the log format gives them, and the two value columns at
    [float64].  [Ok None] marks a table outside this model of the pandas
    calls: a key that is not an integer, or no row at all (the columns of
    an empty table have no numeric type). *)
Definition DataFrame (c : columns) : result (option (list row)) :=
  if same_length c then
    match frames c with
    | [] => Ok None
    | _ => Ok (zip_rows (frames c) (object_counts c) (latencies c) (sizes c))
    end
  else Raise ValueError.

(** ** Grouped reductions

    pandas reduces a float column group by group in one pass over the rows
    ([group_sum] and [group_mean] of its [groupby] kernels, as they are
    from pandas 2.1 to pandas 3.0; the script pins no version): every group
    has a running sum with a compensation term (Kahan summation) and a
    count of the entries that are not NaN; NaN entries are skipped, and a
    compensation that comes out NaN is reset to zero. *)

Record acc : Type := Acc {
  nobs : nat;
  sumx : float;
  compensation : float
}.

Definition acc0 : acc := Acc 0 Float.zero Float.zero.

Definition acc_add (a : acc) (val : float) : acc :=
  if Float.is_nan val then a
  else
    let y := Float.sub val (compensation a) in
    let t := Float.add (sumx a) y in
    let c := Float.sub (Float.sub t (sumx a)) y in
    Acc (S (nobs a)) t (if Float.is_nan c then Float.zero else c).

(** The sum of a group: [0.0] when every entry is NaN. *)
Definition acc_sum (a : acc) : float := sumx a.

(** The mean of a group: NaN when every entry is NaN. *)
Definition acc_mean (a : acc) : float :=
  match nobs a with
  | O => Float.nan
  | n => Float.div (sumx a) (Float.of_Z (Z.of_nat n))
  end.

Section GroupBy.
Context {K R : Type}.
Variable cmp : K -> K -> comparison.
Variable key : R -> K.
Variable values : R -> float * float.

(** The groups, kept in ascending order of their keys. *)
Fixpoint group_update (k : K) (f : acc * acc -> acc * acc)
  (g : list (K * (acc * acc))) : list (K * (acc * acc)) :=
  match g with
  | [] => [(k, f (acc0, acc0))]
  | (k', a) :: g' =>
      match cmp k k' with
      | Lt => (k, f (acc0, acc0)) :: g
      | Eq => (k', f a) :: g'
      | Gt => (k', a) :: group_update k f g'
      end
  end.

Definition add_row (r : R) (a : acc * acc) : acc * acc :=
  (acc_add (fst a) (fst (values r)), acc_add (snd a) (snd (values r))).

(** One pass over the rows, in their order. *)
Definition groupby (df : list R) : list (K * (acc * acc)) :=
  fold_left (fun g r => group_update (key r) (add_row r) g) df [].
End GroupBy.

Definition key_cmp (a b : Z * Z) : comparison :=
  match fst a ?= fst b with
  | Eq => snd a ?= snd b
  | c => c
  end.

(** The key of the first grouping: ['Frame'], then ['Object Count']. *)
Definition row_key (r : row) : Z * Z := (Frame r, Object_Count r).

(** [df.groupby(['Frame', 'Object Count']).sum().reset_index()] *)
Definition groupby_sum (df : list row) : list row :=
  map (fun g => Row (fst (fst g)) (snd (fst g))
                    (acc_sum (fst (snd g))) (acc_sum (snd (snd g))))
      (groupby key_cmp row_key (fun r => (Latency r, Size r)) df).

(** [df.drop(columns=['Frame'])] *)
Definition drop_Frame (df : list row) : list AggregatedRow :=
  map (fun r => AggRow (Object_Count r) (Latency r) (Size r)) df.

(** [df.groupby(['Object Count']).mean().reset_index()] *)
Definition groupby_mean (df : list AggregatedRow) : list AggregatedRow :=
  map (fun g => AggRow (fst g) (acc_mean (fst (snd g))) (acc_mean (snd (snd g))))
      (groupby Z.compare object_count
               (fun r => (latency_ms r, size_kb r)) df).

Fixpoint insert_by_object_count (r : AggregatedRow) (l : list AggregatedRow)
  : list AggregatedRow :=
  match l with
  | [] => [r]
  | r' :: l' =>
      if object_count r <? object_count r' then r :: l
      else r' :: insert_by_object_count r l'
  end.

(** [df.sort_values(by='Object Count')]: a sort on the key column.  The
    keys are distinct where the script calls it, so that every sorting
    algorithm returns the list this insertion sort returns. *)
Definition sort_values (df : list AggregatedRow) : list AggregatedRow :=
  fold_right insert_by_object_count [] df.

(** Lines 29 to 33. *)
Definition aggregate (df : list row) : list AggregatedRow :=
  sort_values (groupby_mean (drop_Frame (groupby_sum df))).

(** ** The script up to the aggregated table (lines 9 to 33)

    [Ok None] is the result for a table that [DataFrame] leaves outside
    the model: what lines 29 to 33 do with it, exceptions included, is
    not stated. *)

Definition main (json_loads : string -> option pyval)
  (input_files : list (list string))
  : result (option (list AggregatedRow)) :=
  let* c := load json_loads input_files in
  let* df := DataFrame c in
  Ok (option_map aggregate df).

(** ** The aggregation, group by group *)

(** Sums and means of a list of floats, as pandas reduces a group. *)
Definition series_sum (l : list float) : float :=
  acc_sum (fold_left acc_add l acc0).

Definition key_le (a b : Z * Z) : Prop := key_cmp a b <> Gt.

#[global] Instance key_le_dec (a b : Z * Z) : Decision (key_le a b).
Proof. unfold key_le. destruct (key_cmp a b); [left|left|right]; congruence. Defined.

(** The records of one (frame, object_count) pair, in encounter order. *)
Definition group_rows (k : Z * Z) (df : list row) : list row :=
  filter (fun r => row_key r = k) df.

(** The stage-1 rows of one object_count. *)
Definition rows_of_count (o : Z) (t : list AggregatedRow)
  : list AggregatedRow :=
  filter (fun r => object_count r = o) t.

(** Stage 1 under a reduction [sum] of the values of a group: one row for
    every (frame, object_count) pair, in ascending order of the pairs. *)
Definition stage1_of (sum : list float -> float) (df : list row) : list row :=
  map (fun k => Row (fst k) (snd k)
                    (sum (map Latency (group_rows k df)))
                    (sum (map Size (group_rows k df))))
      (merge_sort key_le (remove_dups (map row_key df))).

(** Stage 2 under a reduction [mean]: the frame dropped, one row for every
    object_count, in ascending order, reduced from the stage-1 rows of
    that object_count. *)
Definition stage2_of (mean : list float -> float) (t : list row)
  : list AggregatedRow :=
  map (fun o => AggRow o
                  (mean (map latency_ms (rows_of_count o (drop_Frame t))))
                  (mean (map size_kb (rows_of_count o (drop_Frame t)))))
      (merge_sort Z.le (remove_dups (map Object_Count t))).


(** ** The aggregation in the words of the specification *)

(** The sum of the values of a group: one float addition for every value,
    in the order of the records. *)
Definition spec_sum (l : list float) : float :=
  fold_left Float.add l Float.zero.

(** The arithmetic mean: the sum divided by the number of values. *)
Definition spec_mean (l : list float) : float :=
  Float.div (spec_sum l) (Float.of_Z (Z.of_nat (length l))).




(** *** The same, with the values that are NaN left out *)

Definition not_nan (l : list float) : list float :=
  filter (fun x => Float.is_nan x = false) l.

(** The sum of the values that are not NaN; [0.0] when there is none. *)
Definition skipna_sum (l : list float) : float := spec_sum (not_nan l).

(** The arithmetic mean of the values that are not NaN; NaN, the quotient
    of zero by zero, when there is none. *)
Definition skipna_mean (l : list float) : float := spec_mean (not_nan l).

Definition skipna_stage1 (df : list row) : list row :=
  stage1_of skipna_sum df.
Definition skipna_stage2 (t : list row) : list AggregatedRow :=
  stage2_of skipna_mean t.
Definition skipna_aggregate (df : list row) : list AggregatedRow :=
  skipna_stage2 (skipna_stage1 df).





(** ** Orders given by a comparison function *)

Class CmpOrder {K : Type} (cmp : K -> K -> comparison) : Prop := {
  cmp_eq x y : cmp x y = Eq -> x = y;
  cmp_refl x : cmp x x = Eq;
  cmp_opp x y : cmp y x = CompOpp (cmp x y);
  cmp_trans x y z : cmp x y = Lt -> cmp y z = Lt -> cmp x z = Lt
}.

Definition cmp_lt {K : Type} (cmp : K -> K -> comparison) : relation K :=
  fun a b => cmp a b = Lt.

Section Keys.
Context {K R : Type} `{EqDecision K}.
Variable cmp : K -> K -> comparison.
Variable key : R -> K.
Variable values : R -> float * float.

(** Insertion of a key in an ascending list without repetition. *)
Fixpoint key_insert (k : K) (ks : list K) : list K :=
  match ks with
  | [] => [k]
  | k' :: ks' =>
      match cmp k k' with
      | Lt => k :: ks
      | Eq => ks
      | Gt => k' :: key_insert k ks'
      end
  end.

(** The keys of the groups of [groupby]. *)
Definition sorted_keys (df : list R) : list K :=
  fold_left (fun ks r => key_insert (key r) ks) df [].

(** The accumulators of the group of [k] after a pass over [df]. *)
Definition group_acc (k : K) (df : list R) : acc * acc :=
  fold_left (fun a r => add_row values r a)
            (filter (fun r => key r = k) df) (acc0, acc0).
End Keys.

(** ** Sample log lines and tables *)

(** A line as the iteration over a file yields it: with its newline. *)
Definition eol : string := String (Json.byte 10) EmptyString.
Definition log_line (s : string) : string := Json.dq s ++ eol.

Definition line_frame1 : string :=
  log_line "{'span':{'frame_count':1,'object_count':10},'fields':{'latency_in_nanos':5000000,'msg_len':2048}}".
Definition line_frame2 : string :=
  log_line "{'span':{'frame_count':2,'object_count':10},'fields':{'latency_in_nanos':15000000,'msg_len':4096}}".

Definition fields_frame1 : list (string * pyval) :=
  [("latency_in_nanos", PInt 5000000); ("msg_len", PInt 2048)].
Definition record_frame1 : list (string * pyval) :=
  [("span", PDict [("frame_count", PInt 1); ("object_count", PInt 10)]);
   ("fields", PDict fields_frame1)].

(** No latency, and no [span] or [msg_len] either. *)
Definition line_no_latency : string :=
  log_line "{'fields':{'message':'frame start'}}".
Definition fields_no_latency : list (string * pyval) :=
  [("message", PStr "frame start")].
Definition record_no_latency : list (string * pyval) :=
  [("fields", PDict fields_no_latency)].

Definition line_no_fields : string :=
  log_line "{'span':{'frame_count':1,'object_count':10}}".
Definition record_no_fields : list (string * pyval) :=
  [("span", PDict [("frame_count", PInt 1); ("object_count", PInt 10)])].

Definition line_malformed : string :=
  log_line "{'span':{'frame_count':1,".

(** Three records of one frame at one object count, in two log files. *)
Definition line_35ms : string :=
  log_line "{'span':{'frame_count':3,'object_count':8},'fields':{'latency_in_nanos':35053435,'msg_len':1024}}".
Definition line_15ms : string :=
  log_line "{'span':{'frame_count':3,'object_count':8},'fields':{'latency_in_nanos':15408151,'msg_len':1024}}".
Definition line_3ms : string :=
  log_line "{'span':{'frame_count':3,'object_count':8},'fields':{'latency_in_nanos':3516291,'msg_len':1024}}".
Definition file_a : list string := [line_35ms; line_15ms].
Definition file_b : list string := [line_3ms].

(** Two records whose sizes overflow the floats, with opposite signs. *)
Definition line_size_high : string :=
  log_line "{'span':{'frame_count':1,'object_count':4},'fields':{'latency_in_nanos':1000000,'msg_len':1e999}}".
Definition line_size_low : string :=
  log_line "{'span':{'frame_count':1,'object_count':4},'fields':{'latency_in_nanos':1000000,'msg_len':-1e999}}".



(** A frame column put back on an aggregated table. *)
Definition with_Frame (f : Z) (t : list AggregatedRow) : list row :=
  map (fun r => Row f (object_count r) (latency_ms r) (size_kb r)) t.

(** The same records of three frames, the lines of the frames interleaved
    in two ways. *)
Definition table_by_frame : list row :=
  [Row 1 5 (Float.of_Z 10) (Float.of_Z 1); Row 1 5 (Float.of_Z 20) (Float.of_Z 2);
   Row 2 5 (Float.of_Z 1) (Float.of_Z 3); Row 2 7 (Float.of_Z 4) (Float.of_Z 4)].
Definition table_interleaved : list row :=
  [Row 2 7 (Float.of_Z 4) (Float.of_Z 4); Row 1 5 (Float.of_Z 10) (Float.of_Z 1);
   Row 2 5 (Float.of_Z 1) (Float.of_Z 3); Row 1 5 (Float.of_Z 20) (Float.of_Z 2)].

(** One row per object count, in ascending order of the counts. *)
Definition table_one_row_each : list row :=
  [Row 7 10 (Float.of_Z 5) (Float.of_Z 2);
   Row 2 20 (Float.of_Z 8) (S754_infinity false);
   Row 7 30 (Float.of_Z 12) (Float.of_Z 3)].

(** The three latencies of [line_35ms], [line_15ms] and [line_3ms]. *)
Definition ms_35 : float := S754_finite false 4933332400126747 (-47).
Definition ms_15 : float := S754_finite false 8674017887758542 (-49).
Definition ms_3 : float := S754_finite false 7917983418663114 (-51).

(** ** Predicates of the statements *)

(** Ascending order of the key column, strictly. *)
Definition count_lt (a b : AggregatedRow) : Prop :=
  object_count a < object_count b.

Definition one : float := S754_finite false 4503599627370496 (-52).

(** A float that a sum and a mean of one entry return unchanged: not NaN,
    not the negative zero, and a binary64 number. *)
Definition regular (x : float) : Prop :=
  Float.valid x = true /\ x <> S754_nan /\ x <> S754_zero true.

(** A row whose two values are regular. *)
Definition regular_row (r : row) : Prop :=
  regular (Latency r) /\ regular (Size r).

(** The table of the two overflowing sizes, aggregated. *)
Definition aggregated_nan : list AggregatedRow :=
  [AggRow 4 (Float.of_Z 2) S754_nan].
(** ** Further definitions for the record loop *)

(** The four sequences of [a] followed by those of [b]. *)
Definition cat_columns (a b : columns) : columns :=
  Columns (frames a ++ frames b) (object_counts a ++ object_counts b)
          (latencies a ++ latencies b) (sizes a ++ sizes b).

(** The test of line 20 on a line: does the loop go on to lines 22 to 25? *)
Definition keeps (json_loads : string -> option pyval) (line : string)
  : bool :=
  match json_loads line with
  | Some data =>
      match getitem data "fields" with
      | Ok fields =>
          match contains "latency_in_nanos" fields with
          | Ok present => present
          | Raise _ => false
          end
      | Raise _ => false
      end
  | None => false
  end.

(** The exceptions that lines 20 to 25 let escape. *)
Definition escapes (e : exn) : bool :=
  match e with
  | TypeError | ValueError | OverflowError => true
  | JSONDecodeError => false
  | KeyError k =>
      bool_decide (k ∈ ["fields"; "span"; "frame_count"; "object_count";
                        "msg_len"])
  | ZeroDivisionError => false
  end.

(** ** Further definitions for the floats *)

(** A number: a zero or a finite float, neither NaN nor an infinity. *)
Definition is_finite (x : float) : bool :=
  match x with
  | S754_zero _ | S754_finite _ _ _ => true
  | _ => false
  end.

(** [x] is the quotient of [a] by [b] with no rounding: [x * b = a] in
    the rationals, for the value [(-1)^s * m * 2^e] of a finite float. *)
Definition exact_quotient (x : float) (a b : Z) : Prop :=
  match x with
  | S754_zero _ => a = 0
  | S754_finite s m e =>
      let v := if s then Zneg m else Zpos m in
      if 0 <=? e then a = v * 2 ^ e * b else a * 2 ^ (- e) = v * b
  | _ => False
  end.

(** ** Further sample tables *)

(** No (frame, object_count) pair twice; the rows in no order. *)
Definition table_distinct_pairs : list row :=
  [Row 2 5 (Float.of_Z 7) (Float.of_Z 1); Row 1 7 (Float.of_Z 4) (Float.of_Z 4);
   Row 1 5 (Float.of_Z 10) (Float.of_Z 2)].

(** The same rows in another order. *)
Definition table_distinct_pairs_reordered : list row :=
  [Row 1 5 (Float.of_Z 10) (Float.of_Z 2); Row 2 5 (Float.of_Z 7) (Float.of_Z 1);
   Row 1 7 (Float.of_Z 4) (Float.of_Z 4)].

(** ** Lines that the loop reads without exception *)

(** A JSON object with an object [fields] that either lacks the latency,
    or has an integer latency and an integer length next to an object
    [span] with a frame and an object count. *)
Definition conforms (json_loads : string -> option pyval) (line : string)
  : Prop :=
  exists d fs,
    json_loads line = Some (PDict d) /\
    dict_get "fields" d = Some (PDict fs) /\
    (dict_get "latency_in_nanos" fs = None \/
     exists sp fc oc n m,
       dict_get "span" d = Some (PDict sp) /\
       dict_get "frame_count" sp = Some fc /\
       dict_get "object_count" sp = Some oc /\
       dict_get "latency_in_nanos" fs = Some (PInt n) /\
       dict_get "msg_len" fs = Some (PInt m) /\
       - 2 ^ 1023 < n < 2 ^ 1023 /\
       - 2 ^ 1023 < m < 2 ^ 1023).

(** ** Blank lines *)

(** A line of white space only, the empty line included. *)
Fixpoint blank (s : string) : bool :=
  match s with
  | EmptyString => true
  | String c r => Json.is_ws c && blank r
  end.

(** The line that a file has between two newlines in a row. *)
Definition empty_line : string := eol.

(** A line that holds a JSON array. *)
Definition line_array : string := log_line "[1, 2]".

(** ** Facts about the error monad and the loop *)

Lemma bind_Ok {A B : Type} (r : result A) (k : A -> result B) (b : B) :
  bind r k = Ok b -> exists a, r = Ok a /\ k a = Ok b.
Proof. destruct r as [a|e]; simpl; [eauto | discriminate]. Qed.

Lemma bind_raises {A B : Type} (r : result A) (k : A -> result B) :
  raises r -> raises (bind r k).
Proof. intros [e ->]. exists e. reflexivity. Qed.

Lemma push_neq (st : columns) fc oc ms kb : push st fc oc ms kb <> st.
Proof.
  intros H. apply (f_equal (fun c => length (frames c))) in H.
  simpl in H. rewrite length_app in H. simpl in H. lia.
Qed.

Ltac bind_step H :=
  let a := fresh "a" in
  let Ha := fresh "E" in
  apply bind_Ok in H; destruct H as (a & Ha & H).

Section LoaderFacts.
Variable json_loads : string -> option pyval.

Lemma process_line_unparsed st line :
  json_loads line = None ->
  process_line json_loads st line = Raise JSONDecodeError.
Proof. intros H. unfold process_line, loads. rewrite H. reflexivity. Qed.

(** The loop body, in terms of [extract]. *)
Lemma process_line_eq st line data :
  json_loads line = Some data ->
  process_line json_loads st line =
    (let* fields := getitem data "fields" in
     let* present := contains "latency_in_nanos" fields in
     if negb present then Ok st
     else let* row := extract data in
          let '(fc, oc, ms, kb) := row in
          Ok (push st fc oc ms kb)).
Proof.
  intros H. unfold process_line, loads, extract. rewrite H. cbn [bind].
  destruct (getitem data "fields") as [fields|]; cbn [bind negb]; [|reflexivity].
  destruct (contains "latency_in_nanos" fields) as [[]|]; cbn [bind negb];
    try reflexivity.
  destruct (getitem data "span") as [span|]; cbn [bind negb]; [|reflexivity].
  destruct (getitem span "frame_count") as [fc|]; cbn [bind negb]; [|reflexivity].
  destruct (getitem span "object_count") as [oc|]; cbn [bind negb]; [|reflexivity].
  destruct (getitem fields "latency_in_nanos") as [nanos|]; cbn [bind negb];
    [|reflexivity].
  destruct (py_int nanos) as [n|]; cbn [bind negb]; [|reflexivity].
  destruct (int_truediv n 1000000) as [ms|]; cbn [bind negb]; [|reflexivity].
  destruct (getitem fields "msg_len") as [msg_len|]; cbn [bind negb]; [|reflexivity].
  destruct (truediv msg_len 1024) as [kb|]; reflexivity.
Qed.

Lemma read_lines_app st f1 f2 :
  read_lines json_loads st (f1 ++ f2) =
    (let* st' := read_lines json_loads st f1 in
     read_lines json_loads st' f2).
Proof.
  revert st. induction f1 as [|l f1 IH]; intros st; simpl; [reflexivity|].
  destruct (process_line json_loads st l) as [st'|e]; simpl; auto.
Qed.

(** Reading the files one after the other is reading all their lines. *)
Lemma read_files_concat st input_files :
  read_files json_loads st input_files =
    read_lines json_loads st (concat input_files).
Proof.
  revert st. induction input_files as [|f rest IH]; intros st; simpl;
    [reflexivity|].
  rewrite read_lines_app.
  destruct (read_lines json_loads st f); simpl; auto.
Qed.

(** A line on which the body raises from every state aborts every run
    that contains it. *)
Lemma read_lines_raises st f line :
  In line f ->
  (forall st0, raises (process_line json_loads st0 line)) ->
  raises (read_lines json_loads st f).
Proof.
  intros Hin Hr. revert st.
  induction f as [|l f IH]; intros st; [destruct Hin|].
  simpl. destruct Hin as [->|Hin].
  - apply bind_raises, Hr.
  - destruct (process_line json_loads st l) as [st'|e]; simpl.
    + apply IH, Hin.
    + exists e. reflexivity.
Qed.

Lemma load_raises input_files line :
  In line (concat input_files) ->
  (forall st0, raises (process_line json_loads st0 line)) ->
  raises (load json_loads input_files).
Proof.
  intros Hin Hr. unfold load. rewrite read_files_concat.
  eapply read_lines_raises; eauto.
Qed.

(** When the lines before it are read without exception, the exception
    of the run is the exception of the line. *)
Lemma read_lines_first_raise st st' pre line post e :
  read_lines json_loads st pre = Ok st' ->
  process_line json_loads st' line = Raise e ->
  read_lines json_loads st (pre ++ line :: post) = Raise e.
Proof.
  intros Hpre Hl. rewrite read_lines_app, Hpre. simpl. rewrite Hl.
  reflexivity.
Qed.
End LoaderFacts.

(** ** Facts about one iteration *)

Section IterationFacts.
Variable json_loads : string -> option pyval.

Lemma contains_dict k d :
  contains k (PDict d) = Ok (bool_decide (is_Some (dict_get k d))).
Proof. reflexivity. Qed.

Lemma process_line_absent st line d fs :
  json_loads line = Some (PDict d) ->
  dict_get "fields" d = Some (PDict fs) ->
  dict_get "latency_in_nanos" fs = None ->
  process_line json_loads st line = Ok st.
Proof.
  intros Hl Hf Hn. rewrite (process_line_eq _ _ _ _ Hl).
  unfold getitem at 1. rewrite Hf. cbn [bind]. rewrite contains_dict, Hn.
  rewrite bool_decide_eq_false_2; [reflexivity|].
  intros [x Hx]. discriminate.
Qed.

Lemma process_line_present st st' line d fs :
  json_loads line = Some (PDict d) ->
  dict_get "fields" d = Some (PDict fs) ->
  is_Some (dict_get "latency_in_nanos" fs) ->
  process_line json_loads st line = Ok st' ->
  exists fc oc ms kb,
    extract (PDict d) = Ok (fc, oc, ms, kb) /\ st' = push st fc oc ms kb.
Proof.
  intros Hl Hf Hs. rewrite (process_line_eq _ _ _ _ Hl).
  unfold getitem at 1. rewrite Hf. cbn [bind]. rewrite contains_dict.
  rewrite bool_decide_eq_true_2 by exact Hs. cbn [bind negb].
  intros H. bind_step H. destruct a as [[[fc oc] ms] kb].
  exists fc, oc, ms, kb. split; [assumption | congruence].
Qed.

(** With the key present, the iteration is the extraction of the row. *)
Lemma process_line_kept st line d fs :
  json_loads line = Some (PDict d) ->
  dict_get "fields" d = Some (PDict fs) ->
  is_Some (dict_get "latency_in_nanos" fs) ->
  process_line json_loads st line =
    (let* row := extract (PDict d) in
     let '(fc, oc, ms, kb) := row in
     Ok (push st fc oc ms kb)).
Proof.
  intros Hl Hf Hs. rewrite (process_line_eq _ _ _ _ Hl).
  unfold getitem at 1. rewrite Hf. cbn [bind]. rewrite contains_dict.
  rewrite bool_decide_eq_true_2 by exact Hs. reflexivity.
Qed.

(** The values of a kept record, whatever the JSON types of its fields:
    [int] is applied to the latency before the division. *)
Lemma process_line_values st st' line d fs :
  json_loads line = Some (PDict d) ->
  dict_get "fields" d = Some (PDict fs) ->
  is_Some (dict_get "latency_in_nanos" fs) ->
  process_line json_loads st line = Ok st' ->
  exists nanos msg_len n ms kb,
    dict_get "latency_in_nanos" fs = Some nanos /\
    dict_get "msg_len" fs = Some msg_len /\
    py_int nanos = Ok n /\
    int_truediv n 1000000 = Ok ms /\
    truediv msg_len 1024 = Ok kb /\
    latencies st' = latencies st ++ [ms] /\
    sizes st' = sizes st ++ [kb].
Proof.
  intros Hl Hf Hs Hp.
  destruct (process_line_present st st' line d fs Hl Hf Hs Hp)
    as (fc & oc & ms & kb & Hex & ->).
  unfold extract in Hex. repeat bind_step Hex.
  unfold getitem in E2. rewrite Hf in E2. injection E2 as <-.
  unfold getitem in E3, E6.
  destruct (dict_get "latency_in_nanos" fs) as [nanos|]; [|discriminate].
  destruct (dict_get "msg_len" fs) as [msg_len|]; [|discriminate].
  injection E3 as <-. injection E6 as <-. injection Hex as <- <- <- <-.
  exists nanos, msg_len, a4, a5, a7. repeat split; assumption.
Qed.

Lemma process_line_no_fields st line d :
  json_loads line = Some (PDict d) ->
  dict_get "fields" d = None ->
  process_line json_loads st line = Raise (KeyError "fields").
Proof.
  intros Hl Hf. rewrite (process_line_eq _ _ _ _ Hl).
  unfold getitem at 1. rewrite Hf. reflexivity.
Qed.
End IterationFacts.

(** ** Floats: the operations that leave a number as it is *)

Lemma sub_zero x : x <> S754_nan -> Float.sub x Float.zero = x.
Proof. destruct x as [[]|[]| |[] m e]; intros H; try reflexivity; congruence. Qed.

Lemma add_zero x :
  x <> S754_nan -> x <> S754_zero true -> Float.add Float.zero x = x.
Proof.
  destruct x as [[]|[]| |[] m e]; intros H1 H2; try reflexivity; congruence.
Qed.

Lemma sub_diag_finite s m e :
  Float.sub (S754_finite s m e) (S754_finite s m e) = Float.zero.
Proof. unfold Float.sub, SFsub. rewrite Z.sub_diag. reflexivity. Qed.

Lemma div_eucl_exact a b :
  0 < b -> Z.div_eucl (a * b) b = (a, 0).
Proof.
  intros Hb.
  assert (Z.div_eucl (a * b) b = (a * b / b, (a * b) mod b)) as ->.
  { unfold Z.div, Z.modulo. destruct (Z.div_eucl (a * b) b). reflexivity. }
  rewrite Z.div_mul, Z.mod_mul by lia. reflexivity.
Qed.

Lemma of_Z_1 : Float.of_Z 1 = one.
Proof. reflexivity. Qed.

(** Rounding a number that is already in the format. *)
Lemma binary_round_aux_bounded s m e :
  bounded Float.prec Float.emax m e = true ->
  binary_round_aux Float.prec Float.emax s (Zpos m) e loc_Exact =
    S754_finite s m e.
Proof.
  intros Hb. unfold bounded, canonical_mantissa in Hb.
  apply andb_prop in Hb. destruct Hb as [Hc He].
  apply Z.eqb_eq in Hc.
  unfold binary_round_aux, shr_fexp. cbn [Zdigits2].
  rewrite Hc, Z.sub_diag. cbn [shr shr_record_of_loc shr_m loc_of_shr_record
    round_nearest_even Zdigits2].
  rewrite Hc, Z.sub_diag. cbn [shr shr_m]. rewrite He. reflexivity.
Qed.

Lemma binary_round_aux_double s m e :
  bounded Float.prec Float.emax m e = true ->
  binary_round_aux Float.prec Float.emax s (Zpos m~0) (e - 1) loc_Exact =
    S754_finite s m e.
Proof.
  intros Hb. pose proof Hb as Hb'. unfold bounded, canonical_mantissa in Hb.
  apply andb_prop in Hb. destruct Hb as [Hc He].
  apply Z.eqb_eq in Hc.
  unfold binary_round_aux, shr_fexp. cbn [Zdigits2 digits2_pos].
  assert (forall p, Z.pos (PosDef.Pos.succ p) + (e - 1) = Z.pos p + e) as Hs
    by (intros p; change (PosDef.Pos.succ p) with (Pos.succ p); lia).
  rewrite Hs, Hc. replace (e - (e - 1)) with 1 by lia.
  cbn [shr shr_record_of_loc SpecFloat.iter_pos shr_1 orb shr_m loc_of_shr_record
    round_nearest_even Zdigits2].
  replace (e - 1 + 1) with e by lia.
  rewrite Hc, Z.sub_diag. cbn [shr shr_m]. rewrite He. reflexivity.
Qed.

Lemma div_one x : Float.valid x = true -> Float.div x one = x.
Proof.
  destruct x as [[]|[]| |s m e]; try reflexivity.
  intros Hb. unfold Float.valid, valid_binary in Hb.
  unfold Float.div, SFdiv, one, SFdiv_core_binary.
  change (Zdigits2 4503599627370496) with 53.
  cbn [Zdigits2].
  pose proof Hb as Hb'. unfold bounded, canonical_mantissa in Hb'.
  apply andb_prop in Hb'. destruct Hb' as [Hc He].
  apply Z.eqb_eq in Hc. apply Z.leb_le in He.
  unfold fexp, emin, Float.prec, Float.emax in *.
  set (d := Z.pos (digits2_pos m)) in *.
  assert (0 < d) as Hd by (unfold d; lia).
  assert (Z.max (d + e - (53 + -52) - 53) (3 - 1024 - 53) = e \/
          Z.max (d + e - (53 + -52) - 53) (3 - 1024 - 53) = e - 1)
    as [-> | ->] by lia.
  - (* the quotient keeps the exponent *)
    replace (Z.min e (e - -52)) with e by lia.
    replace (e - -52 - e) with 52 by lia.
    rewrite Z.shiftl_mul_pow2 by lia.
    rewrite div_eucl_exact by reflexivity.
    change (new_location 4503599627370496 0) with loc_Exact.
    rewrite xorb_false_r. apply binary_round_aux_bounded, Hb.
  - (* one more bit, shifted out again by the rounding *)
    replace (Z.min (e - 1) (e - -52)) with (e - 1) by lia.
    replace (e - -52 - (e - 1)) with 53 by lia.
    rewrite Z.shiftl_mul_pow2 by lia.
    change (2 ^ 53) with (2 * 4503599627370496).
    rewrite Z.mul_assoc, div_eucl_exact by reflexivity.
    change (new_location 4503599627370496 0) with loc_Exact.
    rewrite xorb_false_r.
    replace (Z.pos m * 2) with (Z.pos m~0) by lia.
    apply binary_round_aux_double, Hb.
Qed.

Lemma regular_not_nan x : regular x -> Float.is_nan x = false.
Proof. intros (_ & Hn & _). destruct x; try reflexivity. congruence. Qed.

Lemma acc_add_first x :
  regular x -> acc_add acc0 x = Acc 1 x (compensation (acc_add acc0 x)).
Proof.
  intros Hx. pose proof (regular_not_nan x Hx) as Hnan.
  destruct Hx as (Hv & Hn & Hz).
  unfold acc_add. rewrite Hnan. cbn [acc0 sumx compensation nobs].
  rewrite (sub_zero x Hn), (add_zero x Hn Hz). reflexivity.
Qed.

(** The sum of one entry is the entry. *)
Lemma acc_sum_one x : regular x -> acc_sum (acc_add acc0 x) = x.
Proof. intros Hx. rewrite (acc_add_first x Hx). reflexivity. Qed.

(** The mean of one entry is the entry. *)
Lemma acc_mean_one x : regular x -> acc_mean (acc_add acc0 x) = x.
Proof.
  intros Hx. rewrite (acc_add_first x Hx).
  unfold acc_mean. cbn [nobs sumx]. change (Float.of_Z (Z.of_nat 1)) with one.
  apply div_one. apply Hx.
Qed.

(** Float addition is not associative: the plain left-to-right sum of
    three latencies, like the compensated sum of [acc_add], depends on
    their order. *)
Lemma sample_latencies :
  int_truediv 35053435 1000000 = Ok ms_35 /\
  int_truediv 15408151 1000000 = Ok ms_15 /\
  int_truediv 3516291 1000000 = Ok ms_3.
Proof. repeat split; vm_compute; reflexivity. Qed.

Lemma plain_sum_order :
  Float.add (Float.add ms_35 ms_15) ms_3 =
    S754_finite false 7596710835732827 (-47) /\
  Float.add (Float.add ms_3 ms_35) ms_15 =
    S754_finite false 7596710835732828 (-47).
Proof. split; vm_compute; reflexivity. Qed.

Lemma compensated_sum_order :
  series_sum [ms_35; ms_15; ms_3] =
    S754_finite false 7596710835732827 (-47) /\
  series_sum [ms_3; ms_35; ms_15] =
    S754_finite false 7596710835732828 (-47).
Proof. split; vm_compute; reflexivity. Qed.

(** ** Facts about [groupby] *)

#[global] Instance Z_compare_order : CmpOrder Z.compare.
Proof.
  split.
  - intros x y. apply Z.compare_eq.
  - apply Z.compare_refl.
  - intros x y. apply Z.compare_antisym.
  - intros x y z. rewrite !Z.compare_lt_iff. lia.
Qed.

#[global] Instance key_cmp_order : CmpOrder key_cmp.
Proof.
  split.
  - intros [a b] [c d]. unfold key_cmp. simpl.
    destruct (a ?= c) eqn:E1; try discriminate.
    intros E2. apply Z.compare_eq in E1, E2. congruence.
  - intros [a b]. unfold key_cmp. simpl. rewrite !Z.compare_refl. reflexivity.
  - intros [a b] [c d]. unfold key_cmp. simpl.
    rewrite (Z.compare_antisym a c), (Z.compare_antisym b d).
    destruct (a ?= c); reflexivity.
  - intros [a b] [c d] [e f]. unfold key_cmp. simpl.
    destruct (a ?= c) eqn:E1; destruct (c ?= e) eqn:E2;
      destruct (a ?= e) eqn:E3; try discriminate; try reflexivity;
      rewrite ?Z.compare_eq_iff, ?Z.compare_lt_iff, ?Z.compare_gt_iff in *;
      lia.
Qed.

Lemma StronglySorted_mono {A : Type} (R1 R2 : relation A) (l : list A) :
  (forall x y, R1 x y -> R2 x y) ->
  StronglySorted R1 l -> StronglySorted R2 l.
Proof.
  intros Himp. induction 1 as [|x l Hs IH Hall]; constructor; [exact IH|].
  eapply Forall_impl; [exact Hall|]. intros y. apply Himp.
Qed.

Section KeyFacts.
Context {K R : Type} `{EqDecision K}.
Context (cmp : K -> K -> comparison) `{!CmpOrder cmp}.
Context (key : R -> K).

Lemma cmp_lt_neq x y : cmp x y = Lt -> x <> y.
Proof. intros H1 ->. rewrite cmp_refl in H1. discriminate. Qed.

Lemma cmp_gt_neq x y : cmp x y = Gt -> x <> y.
Proof. intros H1 ->. rewrite cmp_refl in H1. discriminate. Qed.

Lemma cmp_gt_lt x y : cmp x y = Gt -> cmp y x = Lt.
Proof. intros H1. rewrite (cmp_opp (cmp:=cmp)), H1. reflexivity. Qed.

Lemma cmp_lt_irrefl x : cmp x x <> Lt.
Proof. rewrite cmp_refl. discriminate. Qed.

#[local] Instance cmp_lt_transitive : Transitive (cmp_lt cmp).
Proof. intros x y z. apply cmp_trans. Qed.

Lemma key_insert_elem k ks x :
  x ∈ key_insert cmp k ks <-> x = k \/ x ∈ ks.
Proof.
  induction ks as [|k' ks IH]; simpl.
  - rewrite list_elem_of_singleton. set_solver.
  - destruct (cmp k k') eqn:E.
    + apply cmp_eq in E. subst. set_solver.
    + set_solver.
    + rewrite elem_of_cons, IH. set_solver.
Qed.

Lemma key_insert_sorted k ks :
  StronglySorted (cmp_lt cmp) ks ->
  StronglySorted (cmp_lt cmp) (key_insert cmp k ks).
Proof.
  induction 1 as [|k' ks Hs IH Hall]; simpl.
  - repeat constructor.
  - destruct (cmp k k') eqn:E.
    + constructor; assumption.
    + constructor; [constructor; assumption|].
      constructor; [exact E|].
      eapply Forall_impl; [exact Hall|].
      intros y Hy. exact (cmp_trans _ _ _ E Hy).
    + constructor; [exact IH|].
      apply Forall_forall. intros y Hy.
      apply key_insert_elem in Hy. destruct Hy as [->|Hy].
      * apply cmp_gt_lt, E.
      * rewrite Forall_forall in Hall. apply Hall, Hy.
Qed.

Lemma sorted_keys_snoc df r :
  sorted_keys cmp key (df ++ [r]) =
    key_insert cmp (key r) (sorted_keys cmp key df).
Proof. unfold sorted_keys. rewrite fold_left_app. reflexivity. Qed.

Lemma sorted_keys_sorted df :
  StronglySorted (cmp_lt cmp) (sorted_keys cmp key df).
Proof.
  induction df as [|r df IH] using rev_ind.
  - constructor.
  - rewrite sorted_keys_snoc. apply key_insert_sorted, IH.
Qed.

Lemma sorted_keys_elem df k :
  k ∈ sorted_keys cmp key df <-> exists r, r ∈ df /\ key r = k.
Proof.
  induction df as [|r df IH] using rev_ind.
  - unfold sorted_keys. simpl. set_solver.
  - rewrite sorted_keys_snoc, key_insert_elem, IH. split.
    + intros [->|(r' & Hr' & <-)].
      * exists r. set_solver.
      * exists r'. set_solver.
    + intros (r' & Hr' & <-). apply elem_of_app in Hr'.
      destruct Hr' as [Hr'|Hr'].
      * right. eauto.
      * left. apply list_elem_of_singleton in Hr'. congruence.
Qed.

Lemma sorted_NoDup ks : StronglySorted (cmp_lt cmp) ks -> NoDup ks.
Proof.
  induction 1 as [|k ks Hs IH Hall]; constructor; [|exact IH].
  intros Hin. rewrite Forall_forall in Hall.
  exact (cmp_lt_irrefl _ (Hall _ Hin)).
Qed.

End KeyFacts.

Section GroupByFacts.
Context {K R : Type} `{EqDecision K}.
Context (cmp : K -> K -> comparison) `{!CmpOrder cmp}.
Context (key : R -> K) (values : R -> float * float).

Lemma group_acc_snoc k df r :
  group_acc key values k (df ++ [r]) =
    if decide (key r = k)
    then add_row values r (group_acc key values k df)
    else group_acc key values k df.
Proof.
  unfold group_acc. rewrite filter_app, fold_left_app.
  rewrite filter_cons, filter_nil.
  destruct (decide (key r = k)); reflexivity.
Qed.

Lemma filter_none (P : R -> Prop) `{!forall x, Decision (P x)} l :
  (forall x, x ∈ l -> ~ P x) -> filter P l = [].
Proof.
  induction l as [|x l IH]; intros Hl; [reflexivity|].
  rewrite filter_cons_False by (apply Hl; left).
  apply IH. intros y Hy. apply Hl. right. exact Hy.
Qed.

Lemma group_acc_absent k df :
  k ∉ sorted_keys cmp key df -> group_acc key values k df = (acc0, acc0).
Proof.
  intros Hk. unfold group_acc. rewrite filter_none; [reflexivity|].
  intros r Hr Hkey. apply Hk, (sorted_keys_elem cmp). eauto.
Qed.

(** An update of the groups listed by key is an insertion of the key. *)
Lemma group_update_map k f (A : K -> acc * acc) ks :
  StronglySorted (cmp_lt cmp) ks ->
  (k ∉ ks -> A k = (acc0, acc0)) ->
  group_update cmp k f (map (fun k' => (k', A k')) ks) =
    map (fun k' => (k', if decide (k' = k) then f (A k') else A k'))
        (key_insert cmp k ks).
Proof.
  induction 1 as [|k' ks Hs IH Hall]; intros HA; simpl.
  - rewrite decide_True by reflexivity.
    rewrite HA by apply not_elem_of_nil. reflexivity.
  - rewrite Forall_forall in Hall.
    assert (forall x, x ∈ ks -> x <> k' ) as Hne.
    { intros x Hx ->. exact (cmp_lt_irrefl cmp _ (Hall _ Hx)). }
    destruct (cmp k k') eqn:E.
    + apply cmp_eq in E. subst k'. simpl.
      rewrite decide_True by reflexivity. f_equal.
      apply map_ext_in. intros x Hx. apply list_elem_of_In in Hx.
      rewrite decide_False by auto. reflexivity.
    + assert (k ∉ k' :: ks) as Hk.
      { intros Hin. apply elem_of_cons in Hin. destruct Hin as [->|Hin].
        - exact (cmp_lt_irrefl cmp _ E).
        - exact (cmp_lt_irrefl cmp _ (cmp_trans _ _ _ E (Hall _ Hin))). }
      simpl. rewrite decide_True by reflexivity. rewrite (HA Hk).
      f_equal. rewrite decide_False by (apply not_eq_sym, (cmp_lt_neq cmp), E).
      f_equal. apply map_ext_in. intros x Hx. apply list_elem_of_In in Hx.
      rewrite decide_False; [reflexivity|].
      intros ->. apply Hk. right. exact Hx.
    + simpl. rewrite decide_False by (apply not_eq_sym, (cmp_gt_neq cmp), E).
      f_equal. apply IH. intros Hk. apply HA.
      intros Hin. apply elem_of_cons in Hin. destruct Hin as [->|Hin].
      * rewrite cmp_refl in E. discriminate.
      * exact (Hk Hin).
Qed.

Lemma groupby_snoc df r :
  groupby cmp key values (df ++ [r]) =
    group_update cmp (key r) (add_row values r) (groupby cmp key values df).
Proof. unfold groupby. rewrite fold_left_app. reflexivity. Qed.

(** The pass over the rows computes, for every key in ascending order,
    the accumulators of the rows of that key taken in their order. *)
Lemma groupby_denote df :
  groupby cmp key values df =
    map (fun k => (k, group_acc key values k df)) (sorted_keys cmp key df).
Proof.
  induction df as [|r df IH] using rev_ind; [reflexivity|].
  pose proof (sorted_keys_snoc cmp key df r) as Hsnoc.
  rewrite groupby_snoc, IH, Hsnoc.
  rewrite group_update_map.
  - apply map_ext. intros k. rewrite group_acc_snoc.
    destruct (decide (k = key r)) as [->|Hne].
    + rewrite decide_True by reflexivity. reflexivity.
    + rewrite decide_False by (apply not_eq_sym, Hne). reflexivity.
  - apply (sorted_keys_sorted cmp).
  - apply group_acc_absent.
Qed.


(** *** Tables with the same groups *)

Lemma sorted_keys_ext df df' :
  (forall k, (exists r, r ∈ df /\ key r = k) <->
             (exists r, r ∈ df' /\ key r = k)) ->
  sorted_keys cmp key df = sorted_keys cmp key df'.
Proof.
  intros Hk. apply (StronglySorted_unique_strong (cmp_lt cmp)).
  - intros x y _ _ Hxy Hyx. unfold cmp_lt in *.
    rewrite (cmp_opp (cmp:=cmp) x y), Hxy in Hyx. discriminate.
  - apply (sorted_keys_sorted cmp).
  - apply (sorted_keys_sorted cmp).
  - apply NoDup_Permutation.
    + apply (sorted_NoDup cmp), (sorted_keys_sorted cmp).
    + apply (sorted_NoDup cmp), (sorted_keys_sorted cmp).
    + intros k. rewrite !(sorted_keys_elem cmp). apply Hk.
Qed.

(** The groups of a table decide the result of [groupby]: how the rows
    of different groups interleave does not matter. *)
Lemma groupby_ext df df' :
  (forall k, filter (fun r => key r = k) df =
             filter (fun r => key r = k) df') ->
  groupby cmp key values df = groupby cmp key values df'.
Proof.
  intros Hg. rewrite !groupby_denote.
  rewrite (sorted_keys_ext df df').
  - apply map_ext. intros k. unfold group_acc. rewrite Hg. reflexivity.
  - intros k. split; intros (r & Hr & Hkey); exists r.
    + assert (r ∈ filter (fun r => key r = k) df') as Hf.
      { rewrite <- Hg. apply list_elem_of_filter. auto. }
      apply list_elem_of_filter in Hf. tauto.
    + assert (r ∈ filter (fun r => key r = k) df) as Hf.
      { rewrite Hg. apply list_elem_of_filter. auto. }
      apply list_elem_of_filter in Hf. tauto.
Qed.

(** *** Tables in which no key repeats *)

Lemma filter_key_unique df r :
  NoDup (map key df) -> r ∈ df ->
  filter (fun r' => key r' = key r) df = [r].
Proof.
  induction df as [|a df IH]; intros Hnd Hin; [inversion Hin|].
  simpl in Hnd. apply NoDup_cons in Hnd. destruct Hnd as [Ha Hnd].
  assert (forall x, x ∈ df -> key x <> key a) as Hne.
  { intros x Hx Hk. apply Ha. rewrite <- Hk.
    apply list_elem_of_In, in_map, list_elem_of_In, Hx. }
  apply elem_of_cons in Hin. destruct Hin as [->|Hin].
  - rewrite filter_cons_True by reflexivity. f_equal.
    apply filter_none. intros x Hx. apply Hne, Hx.
  - rewrite filter_cons_False by (apply not_eq_sym, Hne, Hin).
    apply IH; assumption.
Qed.

Lemma group_acc_distinct df r :
  NoDup (map key df) -> r ∈ df ->
  group_acc key values (key r) df = add_row values r (acc0, acc0).
Proof.
  intros Hnd Hin. unfold group_acc.
  rewrite (filter_key_unique df r Hnd Hin). reflexivity.
Qed.

Lemma sorted_keys_Permutation df :
  NoDup (map key df) -> sorted_keys cmp key df ≡ₚ map key df.
Proof.
  intros Hnd. apply NoDup_Permutation.
  - apply (sorted_NoDup cmp), (sorted_keys_sorted cmp).
  - exact Hnd.
  - intros k. rewrite (sorted_keys_elem cmp), list_elem_of_In, in_map_iff.
    setoid_rewrite list_elem_of_In. split; intros (r & ? & ?); eauto.
Qed.

Lemma filter_key_Permutation df df' k :
  NoDup (map key df) -> df ≡ₚ df' ->
  filter (fun r => key r = k) df = filter (fun r => key r = k) df'.
Proof.
  intros Hnd Hp.
  assert (NoDup (map key df')) as Hnd'.
  { rewrite <- (Permutation_map key Hp). exact Hnd. }
  destruct (filter (fun r => key r = k) df) as [|r l] eqn:E.
  - symmetry. apply filter_none. intros x Hx Hkey.
    assert (x ∈ filter (fun r => key r = k) df) as Hf.
    { apply list_elem_of_filter. split; [exact Hkey|]. rewrite Hp. exact Hx. }
    rewrite E in Hf. inversion Hf.
  - assert (r ∈ filter (fun r => key r = k) df) as Hf by (rewrite E; left).
    apply list_elem_of_filter in Hf. destruct Hf as [<- Hr].
    rewrite (filter_key_unique df r Hnd Hr) in E.
    rewrite <- E. symmetry. apply filter_key_unique; [exact Hnd'|].
    rewrite <- Hp. exact Hr.
Qed.

(** Every row is a group of its own: the groups are the rows, each
    reduced alone, in ascending order of the keys. *)
Lemma groupby_distinct df :
  NoDup (map key df) ->
  groupby cmp key values df ≡ₚ
    map (fun r => (key r, add_row values r (acc0, acc0))) df.
Proof.
  intros Hnd. rewrite groupby_denote.
  rewrite (Permutation_map _ (sorted_keys_Permutation df Hnd)).
  rewrite map_map.
  erewrite map_ext_in; [reflexivity|].
  intros r Hr. simpl. f_equal.
  apply group_acc_distinct; [exact Hnd|]. apply list_elem_of_In, Hr.
Qed.
End GroupByFacts.

(** ** The two stages *)





Lemma map_object_count_drop_Frame t :
  map object_count (drop_Frame t) = map Object_Count t.
Proof. unfold drop_Frame. rewrite map_map. reflexivity. Qed.


Lemma groupby_mean_keys t :
  map object_count (groupby_mean t) = sorted_keys Z.compare object_count t.
Proof.
  unfold groupby_mean. rewrite (groupby_denote Z.compare), !map_map.
  simpl. apply map_id.
Qed.

Lemma groupby_mean_sorted t : StronglySorted count_lt (groupby_mean t).
Proof.
  pose proof (sorted_keys_sorted Z.compare object_count t) as Hs.
  rewrite <- groupby_mean_keys in Hs.
  induction (groupby_mean t) as [|r l IH]; [constructor|].
  simpl in Hs. apply StronglySorted_inv in Hs. destruct Hs as [Hs Hall].
  constructor; [apply IH, Hs|].
  apply Forall_forall. intros y Hy. rewrite Forall_forall in Hall.
  unfold count_lt. apply Z.compare_lt_iff. apply (Hall (object_count y)).
  apply list_elem_of_In, in_map, list_elem_of_In, Hy.
Qed.

Lemma insert_by_object_count_head r l :
  Forall (count_lt r) l -> insert_by_object_count r l = r :: l.
Proof.
  destruct l as [|r' l]; [reflexivity|]. intros Hall. simpl.
  apply Forall_inv in Hall. unfold count_lt in Hall.
  apply Z.ltb_lt in Hall. rewrite Hall. reflexivity.
Qed.

(** A table already in ascending key order is left as it is. *)
Lemma sort_values_sorted l : StronglySorted count_lt l -> sort_values l = l.
Proof.
  induction 1 as [|r l Hs IH Hall]; [reflexivity|].
  unfold sort_values in *. simpl. rewrite IH.
  apply insert_by_object_count_head, Hall.
Qed.

Lemma aggregate_eq df : aggregate df = groupby_mean (drop_Frame (groupby_sum df)).
Proof. unfold aggregate. apply sort_values_sorted, groupby_mean_sorted. Qed.


Lemma aggregate_sorted df : StronglySorted count_lt (aggregate df).
Proof. rewrite aggregate_eq. apply groupby_mean_sorted. Qed.

(** ** The table depends on the groups only *)

Lemma aggregate_groups df df' :
  (forall k, group_rows k df = group_rows k df') ->
  aggregate df = aggregate df'.
Proof.
  intros Hg. unfold aggregate, groupby_sum.
  rewrite (groupby_ext key_cmp row_key (fun r => (Latency r, Size r)) df df');
    [reflexivity|exact Hg].
Qed.

Lemma aggregate_Permutation_distinct df df' :
  NoDup (map row_key df) -> df ≡ₚ df' -> aggregate df = aggregate df'.
Proof.
  intros Hnd Hp. apply aggregate_groups. intros k.
  apply (filter_key_Permutation row_key); assumption.
Qed.

(** ** Sorting on the key column *)

Lemma insert_by_object_count_Permutation r l :
  insert_by_object_count r l ≡ₚ r :: l.
Proof.
  induction l as [|r' l IH]; [reflexivity|]. simpl.
  destruct (object_count r <? object_count r'); [reflexivity|].
  rewrite IH. apply perm_swap.
Qed.

Lemma sort_values_Permutation l : sort_values l ≡ₚ l.
Proof.
  induction l as [|r l IH]; [reflexivity|].
  unfold sort_values in *. simpl.
  rewrite insert_by_object_count_Permutation, IH. reflexivity.
Qed.

Lemma insert_by_object_count_sorted r l :
  object_count r ∉ map object_count l ->
  StronglySorted count_lt l ->
  StronglySorted count_lt (insert_by_object_count r l).
Proof.
  intros Hr. induction 1 as [|r' l Hs IH Hall]; simpl.
  - repeat constructor.
  - assert (object_count r <> object_count r') as Hne.
    { intros E. apply Hr. rewrite E. left. }
    destruct (object_count r <? object_count r') eqn:E.
    + apply Z.ltb_lt in E. constructor; [constructor; assumption|].
      constructor; [exact E|].
      eapply Forall_impl; [exact Hall|].
      intros y Hy. unfold count_lt in *. lia.
    + apply Z.ltb_ge in E. constructor.
      * apply IH. intros Hin. apply Hr. right. exact Hin.
      * apply Forall_forall. intros y Hy.
        rewrite insert_by_object_count_Permutation in Hy.
        apply elem_of_cons in Hy. destruct Hy as [->|Hy].
        -- unfold count_lt. lia.
        -- rewrite Forall_forall in Hall. apply Hall, Hy.
Qed.

Lemma sort_values_strict l :
  NoDup (map object_count l) -> StronglySorted count_lt (sort_values l).
Proof.
  induction l as [|r l IH]; intros Hnd; [constructor|].
  simpl in Hnd. apply NoDup_cons in Hnd. destruct Hnd as [Hr Hnd].
  change (sort_values (r :: l)) with (insert_by_object_count r (sort_values l)).
  apply insert_by_object_count_sorted; [|apply IH, Hnd].
  rewrite (Permutation_map object_count (sort_values_Permutation l)).
  exact Hr.
Qed.

Lemma count_lt_unique l1 l2 :
  StronglySorted count_lt l1 -> StronglySorted count_lt l2 ->
  l1 ≡ₚ l2 -> l1 = l2.
Proof.
  apply StronglySorted_unique_strong.
  intros x y _ _. unfold count_lt. lia.
Qed.

(** ** Tables with one row per key *)

Lemma groupby_sum_distinct t :
  NoDup (map row_key t) ->
  (forall r, r ∈ t -> regular_row r) ->
  groupby_sum t ≡ₚ t.
Proof.
  intros Hnd Hreg. unfold groupby_sum.
  rewrite (Permutation_map _
    (groupby_distinct key_cmp row_key (fun r => (Latency r, Size r)) t Hnd)).
  rewrite map_map.
  erewrite map_ext_in; [rewrite map_id; reflexivity|].
  intros r Hr. apply list_elem_of_In in Hr. destruct (Hreg r Hr) as [Hl Hs].
  unfold add_row. simpl. rewrite (acc_sum_one _ Hl), (acc_sum_one _ Hs).
  destruct r; reflexivity.
Qed.

Lemma groupby_mean_distinct t :
  NoDup (map object_count t) ->
  (forall r, r ∈ t -> regular (latency_ms r) /\ regular (size_kb r)) ->
  groupby_mean t ≡ₚ t.
Proof.
  intros Hnd Hreg. unfold groupby_mean.
  rewrite (Permutation_map _
    (groupby_distinct Z.compare object_count
       (fun r => (latency_ms r, size_kb r)) t Hnd)).
  rewrite map_map.
  erewrite map_ext_in; [rewrite map_id; reflexivity|].
  intros r Hr. apply list_elem_of_In in Hr. destruct (Hreg r Hr) as [Hl Hs].
  unfold add_row. simpl. rewrite (acc_mean_one _ Hl), (acc_mean_one _ Hs).
  destruct r; reflexivity.
Qed.

Lemma NoDup_row_key t : NoDup (map Object_Count t) -> NoDup (map row_key t).
Proof.
  intros Hnd. apply (NoDup_fmap_1 snd).
  change (NoDup (map snd (map row_key t))). rewrite map_map. exact Hnd.
Qed.

Lemma aggregate_distinct t :
  NoDup (map Object_Count t) ->
  (forall r, r ∈ t -> regular_row r) ->
  aggregate t = sort_values (drop_Frame t).
Proof.
  intros Hnd Hreg.
  pose proof (groupby_sum_distinct t (NoDup_row_key t Hnd) Hreg) as Hp1.
  assert (drop_Frame (groupby_sum t) ≡ₚ drop_Frame t) as Hp2.
  { unfold drop_Frame. apply Permutation_map, Hp1. }
  assert (groupby_mean (drop_Frame (groupby_sum t)) ≡ₚ
          drop_Frame (groupby_sum t)) as Hp3.
  { apply groupby_mean_distinct.
    - rewrite map_object_count_drop_Frame.
      rewrite (Permutation_map Object_Count Hp1). exact Hnd.
    - intros r Hr. rewrite Hp2 in Hr.
      unfold drop_Frame in Hr. apply list_elem_of_In, in_map_iff in Hr.
      destruct Hr as (r0 & <- & Hr0). apply list_elem_of_In in Hr0.
      exact (Hreg r0 Hr0). }
  rewrite aggregate_eq. apply count_lt_unique.
  - apply groupby_mean_sorted.
  - apply sort_values_strict. rewrite map_object_count_drop_Frame. exact Hnd.
  - rewrite Hp3, Hp2. symmetry. apply sort_values_Permutation.
Qed.

(** ** The keys of the final table *)

Lemma groupby_sum_keys df :
  map row_key (groupby_sum df) = sorted_keys key_cmp row_key df.
Proof.
  unfold groupby_sum. rewrite (groupby_denote key_cmp), !map_map.
  erewrite map_ext; [apply map_id|].
  intros [f o]. reflexivity.
Qed.

(** The object counts of the final table are those of the records. *)
Lemma aggregate_object_counts df o :
  o ∈ map object_count (aggregate df) <-> o ∈ map Object_Count df.
Proof.
  rewrite aggregate_eq, groupby_mean_keys.
  rewrite (sorted_keys_elem Z.compare).
  split.
  - intros (r & Hr & <-). unfold drop_Frame in Hr.
    apply list_elem_of_In, in_map_iff in Hr. destruct Hr as (r1 & <- & Hr1).
    simpl.
    assert (row_key r1 ∈ map row_key (groupby_sum df)) as Hk.
    { apply list_elem_of_In, in_map, Hr1. }
    rewrite groupby_sum_keys in Hk.
    apply (sorted_keys_elem key_cmp) in Hk. destruct Hk as (r0 & Hr0 & Hk).
    apply list_elem_of_In, in_map_iff. exists r0.
    split; [|apply list_elem_of_In, Hr0].
    unfold row_key in Hk. congruence.
  - intros Ho. apply list_elem_of_In, in_map_iff in Ho.
    destruct Ho as (r0 & <- & Hr0). apply list_elem_of_In in Hr0.
    assert (row_key r0 ∈ sorted_keys key_cmp row_key df) as Hk.
    { apply (sorted_keys_elem key_cmp). eauto. }
    rewrite <- groupby_sum_keys in Hk.
    apply list_elem_of_In, in_map_iff in Hk. destruct Hk as (r1 & Hk & Hr1).
    exists (AggRow (Object_Count r1) (Latency r1) (Size r1)). split.
    + unfold drop_Frame. apply list_elem_of_In, in_map_iff. eauto.
    + simpl. unfold row_key in Hk. congruence.
Qed.

Lemma aggregate_object_counts_Permutation df df' :
  df ≡ₚ df' ->
  map object_count (aggregate df) = map object_count (aggregate df').
Proof.
  intros Hp. apply (StronglySorted_unique_strong Z.lt).
  - intros x y _ _. lia.
  - rewrite aggregate_eq, groupby_mean_keys.
    eapply StronglySorted_mono; [|apply (sorted_keys_sorted Z.compare)].
    intros x y. unfold cmp_lt. apply Z.compare_lt_iff.
  - rewrite aggregate_eq, groupby_mean_keys.
    eapply StronglySorted_mono; [|apply (sorted_keys_sorted Z.compare)].
    intros x y. unfold cmp_lt. apply Z.compare_lt_iff.
  - apply NoDup_Permutation.
    + rewrite aggregate_eq, groupby_mean_keys.
      apply (sorted_NoDup Z.compare), (sorted_keys_sorted Z.compare).
    + rewrite aggregate_eq, groupby_mean_keys.
      apply (sorted_NoDup Z.compare), (sorted_keys_sorted Z.compare).
    + intros o. rewrite !aggregate_object_counts.
      rewrite (Permutation_map Object_Count Hp). reflexivity.
Qed.

(** ** Groups of at most two values

    pandas leaves out the values that are NaN, and sums one or two values
    as the specification says: the compensation is zero when the second
    value comes in. *)















Ltac regular_value :=
  repeat split; first [reflexivity | discriminate].

(** * The statements of the specification *)






(** C2.  On the two lines of the example, parsing, filtering, unit
    conversion and the two-stage aggregation give exactly one row:
    object_count 10, latency 10.0 ms, size 3.0 KB. *)
Theorem C2_end_to_end_example :
  main Json.loads [[line_frame1; line_frame2]] =
    Ok (Some [AggRow 10 (Float.of_Z 10) (Float.of_Z 3)]).
Proof. vm_compute. reflexivity. Qed.



(** C4.  A record is put in the table exactly when its [fields] object
    has the key [latency_in_nanos].  When the key is absent the iteration
    raises nothing and leaves the four sequences as they were, so that
    the run is the run without that line.  When the key is present the
    iteration is the extraction of the row: it appends the row, or raises
    what the extraction raises.  So a completed iteration has appended a
    row if and only if the key is present. *)
Theorem C4_kept_iff_latency_present (json_loads : string -> option pyval)
  (st : columns) (line : string) (d fs : list (string * pyval)) :
  json_loads line = Some (PDict d) ->
  dict_get "fields" d = Some (PDict fs) ->
  (dict_get "latency_in_nanos" fs = None ->
   process_line json_loads st line = Ok st /\
   forall st0 pre post,
     read_lines json_loads st0 (pre ++ line :: post) =
       read_lines json_loads st0 (pre ++ post)) /\
  (is_Some (dict_get "latency_in_nanos" fs) ->
   process_line json_loads st line =
     (let* row := extract (PDict d) in
      let '(fc, oc, ms, kb) := row in
      Ok (push st fc oc ms kb))) /\
  (forall st', process_line json_loads st line = Ok st' ->
     (is_Some (dict_get "latency_in_nanos" fs) <->
      exists fc oc ms kb, st' = push st fc oc ms kb)).
Proof.
  intros Hl Hf. split; [|split].
  - intros Hn. split.
    + apply (process_line_absent json_loads st line d fs); assumption.
    + intros st0 pre post. rewrite !read_lines_app.
      destruct (read_lines json_loads st0 pre) as [st1|e]; [|reflexivity].
      cbn [bind read_lines].
      rewrite (process_line_absent json_loads st1 line d fs Hl Hf Hn).
      reflexivity.
  - apply (process_line_kept json_loads st line d fs); assumption.
  - intros st' Hp. split.
    + intros Hs.
      destruct (process_line_present json_loads st st' line d fs Hl Hf Hs Hp)
        as (fc & oc & ms & kb & _ & ->). eauto.
    + intros (fc & oc & ms & kb & ->).
      destruct (dict_get "latency_in_nanos" fs) as [v|] eqn:E; [eauto|].
      rewrite (process_line_absent json_loads st line d fs Hl Hf E) in Hp.
      injection Hp as Hp. symmetry in Hp. destruct (push_neq _ _ _ _ _ Hp).
Qed.

Lemma C4_kept_iff_latency_present_witness :
  process_line Json.loads no_columns line_no_latency = Ok no_columns /\
  read_lines Json.loads no_columns
    ([line_frame1] ++ line_no_latency :: [line_frame2]) =
    read_lines Json.loads no_columns ([line_frame1] ++ [line_frame2]) /\
  (forall st',
     process_line Json.loads no_columns line_no_latency = Ok st' ->
     (is_Some (dict_get "latency_in_nanos" fields_no_latency) <->
      exists fc oc ms kb, st' = push no_columns fc oc ms kb)).
Proof.
  destruct (C4_kept_iff_latency_present Json.loads no_columns line_no_latency
              record_no_latency fields_no_latency) as (Hskip & _ & Hiff);
    [vm_compute; reflexivity | vm_compute; reflexivity |].
  destruct Hskip as [Hsame Hrun]; [reflexivity|].
  split; [exact Hsame|]. split; [apply Hrun | exact Hiff].
Defined.

(** C5.  The rows of the final table are in strictly ascending order of
    object_count, and no object_count is in two rows: for every table the
    aggregation is given, and so for every table the script computes. *)
Theorem C5_sorted_unique_object_count :
  (forall df : list row,
     StronglySorted count_lt (aggregate df) /\
     NoDup (map object_count (aggregate df))) /\
  (forall (json_loads : string -> option pyval)
          (input_files : list (list string)),
     match main json_loads input_files with
     | Ok (Some t) =>
         StronglySorted count_lt t /\ NoDup (map object_count t)
     | _ => True
     end).
Proof.
  assert (forall df : list row,
            StronglySorted count_lt (aggregate df) /\
            NoDup (map object_count (aggregate df))) as Hagg.
  { intros df. split; [apply aggregate_sorted|].
    rewrite aggregate_eq, groupby_mean_keys.
    apply (sorted_NoDup Z.compare), (sorted_keys_sorted Z.compare). }
  split; [exact Hagg|].
  intros json_loads input_files. unfold main.
  destruct (load json_loads input_files) as [c|]; [|exact I].
  cbn [bind]. destruct (DataFrame c) as [[df|]|]; cbn [bind option_map]; auto.
Qed.

(** C6, as stated, fails: the aggregation of the two records whose sizes
    overflow with opposite signs has one row, for object_count 4, with a
    NaN size; aggregated again, under any frame, the NaN is skipped by the
    sum and the size of the row becomes 0.0. *)
Lemma C6_counterexample :
  main Json.loads [[line_size_high; line_size_low]] = Ok (Some aggregated_nan) /\
  NoDup (map Object_Count (with_Frame 0 aggregated_nan)) /\
  drop_Frame (with_Frame 0 aggregated_nan) = aggregated_nan /\
  aggregate (with_Frame 0 aggregated_nan) = [AggRow 4 (Float.of_Z 2) Float.zero] /\
  aggregate (with_Frame 0 aggregated_nan) <> aggregated_nan.
Proof.
  split; [vm_compute; reflexivity|].
  split; [repeat constructor; intros H; inversion H|].
  split; [reflexivity|].
  split; [vm_compute; reflexivity|].
  vm_compute. discriminate.
Qed.

(** C6, amended.  The aggregation of a table that has one row per
    object_count, and whose values are binary64 numbers other than NaN
    and the negative zero, returns the rows of the table without their
    frame, in ascending order of object_count; it returns the table
    itself, without the frame, when its rows are in that order. *)
Theorem C6_reaggregation_one_row_per_count (t : list row) :
  NoDup (map Object_Count t) ->
  (forall r, r ∈ t -> regular_row r) ->
  aggregate t = sort_values (drop_Frame t) /\
  (StronglySorted count_lt (drop_Frame t) -> aggregate t = drop_Frame t).
Proof.
  intros Hnd Hreg.
  pose proof (aggregate_distinct t Hnd Hreg) as Hagg.
  split; [exact Hagg|].
  intros Hs. rewrite Hagg. apply sort_values_sorted, Hs.
Qed.

Lemma C6_reaggregation_one_row_per_count_witness :
  aggregate table_one_row_each = sort_values (drop_Frame table_one_row_each) /\
  aggregate table_one_row_each = drop_Frame table_one_row_each.
Proof.
  destruct (C6_reaggregation_one_row_per_count table_one_row_each)
    as [Hsort Hsame].
  - simpl. repeat constructor; simpl; intros H;
      repeat (apply elem_of_cons in H; destruct H as [H|H]; [discriminate|]);
      inversion H.
  - intros r Hr. unfold table_one_row_each in Hr.
    repeat (apply elem_of_cons in Hr; destruct Hr as [->|Hr];
            [regular_value|]).
    inversion Hr.
  - split; [exact Hsort|]. apply Hsame.
    simpl. repeat constructor; unfold count_lt; simpl; lia.
Defined.

(** C7, as stated, fails: three records of one frame at one object_count
    lie in two files; read in the two orders of the files they give two
    different latencies for that object_count, 53.977877 and
    53.97787700000001. *)
Lemma C7_counterexample :
  [file_a; file_b] ≡ₚ [file_b; file_a] /\
  main Json.loads [file_a; file_b] =
    Ok (Some [AggRow 8 (S754_finite false 7596710835732827 (-47))
                       (Float.of_Z 3)]) /\
  main Json.loads [file_b; file_a] =
    Ok (Some [AggRow 8 (S754_finite false 7596710835732828 (-47))
                       (Float.of_Z 3)]) /\
  main Json.loads [file_a; file_b] <> main Json.loads [file_b; file_a].
Proof.
  split; [apply perm_swap|].
  split; [vm_compute; reflexivity|].
  split; [vm_compute; reflexivity|].
  vm_compute. discriminate.
Qed.

(** C7, amended.  Two orders of the same records give final tables with
    the same object counts; the tables are the same whenever the records
    of each (frame, object_count) pair come in the same relative order in
    both: how the records of different pairs interleave, and so the order
    of files that share no pair, does not change any value. *)
Theorem C7_invariant_under_group_preserving_order (df df' : list row) :
  df ≡ₚ df' ->
  map object_count (aggregate df) = map object_count (aggregate df') /\
  ((forall k, group_rows k df = group_rows k df') ->
   aggregate df = aggregate df').
Proof.
  intros Hp. split.
  - apply aggregate_object_counts_Permutation, Hp.
  - apply aggregate_groups.
Qed.

Lemma C7_invariant_under_group_preserving_order_witness :
  map object_count (aggregate table_by_frame) =
    map object_count (aggregate table_interleaved) /\
  aggregate table_by_frame = aggregate table_interleaved.
Proof.
  destruct (C7_invariant_under_group_preserving_order
              table_by_frame table_interleaved) as [Hkeys Hrows].
  - unfold table_by_frame, table_interleaved.
    etransitivity; [|apply Permutation_sym, Permutation_cons_append].
    simpl. apply perm_skip, perm_swap.
  - split; [exact Hkeys|]. apply Hrows.
    intros k. unfold group_rows, table_by_frame, table_interleaved.
    rewrite !filter_cons, !filter_nil. unfold row_key. simpl.
    repeat case_decide; congruence.
Defined.

(** C9.  A line that is not well-formed JSON aborts the run: whatever the
    other lines are, the run ends with an exception and returns no table;
    when the lines before it were read without exception, the exception
    is the decoder's, and what those lines had put in the sequences is
    lost with it. *)
Theorem C9_malformed_line_aborts (json_loads : string -> option pyval)
  (input_files : list (list string)) (line : string) :
  In line (concat input_files) ->
  json_loads line = None ->
  raises (main json_loads input_files) /\
  (forall pre post st,
     concat input_files = pre ++ line :: post ->
     read_lines json_loads no_columns pre = Ok st ->
     main json_loads input_files = Raise JSONDecodeError).
Proof.
  intros Hin Hnone. split.
  - unfold main. apply bind_raises. apply (load_raises json_loads _ line Hin).
    intros st0. exists JSONDecodeError.
    apply process_line_unparsed, Hnone.
  - intros pre post st Hcat Hpre. unfold main, load.
    rewrite read_files_concat, Hcat.
    rewrite (read_lines_first_raise json_loads _ st pre line post
               JSONDecodeError Hpre); [reflexivity|].
    apply process_line_unparsed, Hnone.
Qed.

Lemma C9_malformed_line_aborts_witness :
  raises (main Json.loads [[line_frame1; line_no_latency];
                           [line_malformed; line_frame2]]) /\
  main Json.loads [[line_frame1; line_no_latency];
                   [line_malformed; line_frame2]] = Raise JSONDecodeError.
Proof.
  destruct (C9_malformed_line_aborts Json.loads
              [[line_frame1; line_no_latency]; [line_malformed; line_frame2]]
              line_malformed) as [Hraises Hexn].
  - simpl. right. right. left. reflexivity.
  - vm_compute. reflexivity.
  - split; [exact Hraises|].
    apply (Hexn [line_frame1; line_no_latency] [line_frame2]
                (push no_columns (PInt 1) (PInt 10)
                      (Float.of_Z 5) (Float.of_Z 2)));
      vm_compute; reflexivity.
Defined.

(** C10.  The presence check comes before every other access to the
    record but the read of its top-level key [fields]: a record whose
    [fields] object lacks [latency_in_nanos] is skipped whatever else is
    missing from it, and a record without the key [fields] raises
    [KeyError] and aborts every run it is part of. *)
Theorem C10_presence_check_first (json_loads : string -> option pyval)
  (st : columns) (line : string) (d : list (string * pyval)) :
  json_loads line = Some (PDict d) ->
  (forall fs,
     dict_get "fields" d = Some (PDict fs) ->
     dict_get "latency_in_nanos" fs = None ->
     process_line json_loads st line = Ok st) /\
  (dict_get "fields" d = None ->
   process_line json_loads st line = Raise (KeyError "fields") /\
   forall input_files,
     In line (concat input_files) -> raises (main json_loads input_files)).
Proof.
  intros Hl. split.
  - intros fs Hf Hn. apply (process_line_absent json_loads st line d fs); auto.
  - intros Hf. split.
    + apply (process_line_no_fields json_loads st line d); auto.
    + intros input_files Hin. unfold main. apply bind_raises.
      apply (load_raises json_loads _ line Hin).
      intros st0. exists (KeyError "fields").
      apply (process_line_no_fields json_loads st0 line d); auto.
Qed.

Lemma C10_presence_check_first_witness :
  process_line Json.loads no_columns line_no_fields
    = Raise (KeyError "fields") /\
  raises (main Json.loads [[line_frame1]; [line_no_fields; line_frame2]]).
Proof.
  destruct (C10_presence_check_first Json.loads no_columns line_no_fields
              record_no_fields) as [_ Hno_fields];
    [vm_compute; reflexivity|].
  destruct Hno_fields as [Hexn Hrun]; [reflexivity|].
  split; [exact Hexn|].
  apply Hrun. simpl. right. left. reflexivity.
Defined.

(** * Further properties of the script *)

(** ** The record loop *)

Lemma cat_no_columns st : cat_columns st no_columns = st.
Proof. destruct st. unfold cat_columns. simpl. rewrite !app_nil_r. reflexivity. Qed.

Lemma no_columns_cat st : cat_columns no_columns st = st.
Proof. destruct st. reflexivity. Qed.

Lemma cat_columns_assoc a b c :
  cat_columns (cat_columns a b) c = cat_columns a (cat_columns b c).
Proof. unfold cat_columns. simpl. rewrite !app_assoc. reflexivity. Qed.

Lemma push_cat st fc oc ms kb :
  push st fc oc ms kb = cat_columns st (Columns [fc] [oc] [ms] [kb]).
Proof. reflexivity. Qed.

Section LoopFacts.
Variable json_loads : string -> option pyval.

(** What an iteration appends does not depend on what was read before. *)
Lemma process_line_delta st line st' :
  process_line json_loads st line = Ok st' ->
  exists delta,
    st' = cat_columns st delta /\
    (delta = no_columns /\ keeps json_loads line = false \/
     keeps json_loads line = true /\
     exists fc oc ms kb, delta = Columns [fc] [oc] [ms] [kb]) /\
    forall st0, process_line json_loads st0 line = Ok (cat_columns st0 delta).
Proof.
  destruct (json_loads line) as [data|] eqn:Hl.
  2:{ rewrite (process_line_unparsed _ _ _ Hl). discriminate. }
  rewrite (process_line_eq json_loads st line data Hl).
  unfold keeps. rewrite Hl.
  destruct (getitem data "fields") as [fields|] eqn:Hf; [|discriminate].
  cbn [bind].
  destruct (contains "latency_in_nanos" fields) as [[]|] eqn:Hc;
    [| |discriminate]; cbn [bind negb].
  - destruct (extract data) as [[[[fc oc] ms] kb]|] eqn:Hex; [|discriminate].
    cbn [bind]. intros [= <-].
    exists (Columns [fc] [oc] [ms] [kb]). split; [apply push_cat|].
    split; [right; split; [reflexivity|]; exists fc, oc, ms, kb; reflexivity|].
    intros st0. rewrite (process_line_eq json_loads st0 line data Hl).
    rewrite Hf. cbn [bind]. rewrite Hc. cbn [bind negb]. rewrite Hex.
    reflexivity.
  - intros [= <-]. exists no_columns.
    split; [symmetry; apply cat_no_columns|]. split; [left; auto|].
    intros st0. rewrite (process_line_eq json_loads st0 line data Hl).
    rewrite Hf. cbn [bind]. rewrite Hc. cbn [bind negb].
    rewrite cat_no_columns. reflexivity.
Qed.

Lemma read_lines_delta st f st' :
  read_lines json_loads st f = Ok st' ->
  exists delta,
    st' = cat_columns st delta /\
    length (frames delta) = length (filter (fun l => keeps json_loads l = true) f) /\
    length (object_counts delta) = length (frames delta) /\
    length (latencies delta) = length (frames delta) /\
    length (sizes delta) = length (frames delta) /\
    forall st0, read_lines json_loads st0 f = Ok (cat_columns st0 delta).
Proof.
  revert st st'. induction f as [|line f IH]; intros st st' H.
  - injection H as <-. exists no_columns.
    split; [symmetry; apply cat_no_columns|]. repeat split.
    intros st0. simpl. rewrite cat_no_columns. reflexivity.
  - simpl in H. bind_step H.
    destruct (process_line_delta _ _ _ E) as (d1 & -> & Hd1 & Hall1).
    destruct (IH _ _ H) as (d2 & -> & Hn & Ho & Hl & Hs & Hall2).
    exists (cat_columns d1 d2). split; [apply cat_columns_assoc|].
    assert (length (frames d1) =
            length (filter (fun l => keeps json_loads l = true) [line]) /\
            length (object_counts d1) = length (frames d1) /\
            length (latencies d1) = length (frames d1) /\
            length (sizes d1) = length (frames d1)) as (H1 & H2 & H3 & H4).
    { rewrite filter_cons, filter_nil.
      destruct Hd1 as [[-> Hk]|[Hk (fc & oc & ms & kb & ->)]].
      - rewrite decide_False by congruence. repeat split.
      - rewrite decide_True by exact Hk. repeat split. }
    rewrite filter_cons, filter_nil in H1.
    unfold cat_columns at 1 2 3 4 5 6 7 8. cbn [frames object_counts latencies sizes].
    rewrite !length_app, filter_cons.
    repeat split; try lia.
    + destruct (decide (keeps json_loads line = true)); simpl in *; lia.
    + intros st0. simpl. rewrite Hall1. cbn [bind]. rewrite Hall2.
      rewrite cat_columns_assoc. reflexivity.
Qed.
End LoopFacts.

Lemma load_delta json_loads input_files c :
  load json_loads input_files = Ok c ->
  length (frames c) =
    length (filter (fun l => keeps json_loads l = true) (concat input_files)) /\
  length (object_counts c) = length (frames c) /\
  length (latencies c) = length (frames c) /\
  length (sizes c) = length (frames c) /\
  forall st0,
    read_lines json_loads st0 (concat input_files) = Ok (cat_columns st0 c).
Proof.
  unfold load. rewrite read_files_concat. intros H.
  destruct (read_lines_delta json_loads _ _ _ H)
    as (delta & -> & H1 & H2 & H3 & H4 & Hall).
  rewrite no_columns_cat. auto.
Qed.

Lemma same_length_true c :
  length (object_counts c) = length (frames c) ->
  length (latencies c) = length (frames c) ->
  length (sizes c) = length (frames c) ->
  same_length c = true.
Proof.
  intros H1 H2 H3. unfold same_length. rewrite H1, H2, H3.
  rewrite !Nat.eqb_refl. reflexivity.
Qed.

(** X1.  The four sequences stay aligned: after a run of the record loop
    that raised nothing they have the same length, so that the
    constructor of the table on line 27 does not raise the [ValueError]
    of sequences of different lengths. *)
Theorem X1_sequences_stay_aligned (json_loads : string -> option pyval)
  (input_files : list (list string)) (c : columns) :
  load json_loads input_files = Ok c ->
  length (object_counts c) = length (frames c) /\
  length (latencies c) = length (frames c) /\
  length (sizes c) = length (frames c) /\
  DataFrame c <> Raise ValueError.
Proof.
  intros H. destruct (load_delta _ _ _ H) as (_ & H1 & H2 & H3 & _).
  repeat split; try assumption.
  unfold DataFrame. rewrite (same_length_true c H1 H2 H3).
  destruct (frames c); discriminate.
Qed.

Lemma X1_sequences_stay_aligned_witness :
  length (object_counts (push no_columns (PInt 1) (PInt 10)
                           (Float.of_Z 5) (Float.of_Z 2))) = 1%nat /\
  DataFrame (push no_columns (PInt 1) (PInt 10)
               (Float.of_Z 5) (Float.of_Z 2)) <> Raise ValueError.
Proof.
  destruct (X1_sequences_stay_aligned Json.loads
              [[line_no_latency]; [line_frame1]]
              (push no_columns (PInt 1) (PInt 10)
                    (Float.of_Z 5) (Float.of_Z 2)))
    as (H1 & _ & _ & Hdf); [vm_compute; reflexivity|].
  split; [exact H1 | exact Hdf].
Defined.

(** X2.  Loading composes with concatenation: the sequences loaded from
    two lists of files put one after the other are the sequences of the
    first followed by the sequences of the second.  What a file
    contributes does not depend on the files read before it. *)
Theorem X2_load_concatenates (json_loads : string -> option pyval)
  (files1 files2 : list (list string)) (c1 c2 : columns) :
  load json_loads files1 = Ok c1 ->
  load json_loads files2 = Ok c2 ->
  load json_loads (files1 ++ files2) = Ok (cat_columns c1 c2).
Proof.
  intros H1 H2.
  destruct (load_delta _ _ _ H2) as (_ & _ & _ & _ & Hall).
  unfold load in *. rewrite read_files_concat in *.
  rewrite concat_app, read_lines_app, H1. cbn [bind]. apply Hall.
Qed.

Lemma X2_load_concatenates_witness :
  load Json.loads ([[line_frame1; line_no_latency]] ++ [[line_frame2]]) =
    Ok (cat_columns
          (push no_columns (PInt 1) (PInt 10) (Float.of_Z 5) (Float.of_Z 2))
          (push no_columns (PInt 2) (PInt 10) (Float.of_Z 15) (Float.of_Z 4))).
Proof.
  apply (X2_load_concatenates Json.loads); vm_compute; reflexivity.
Defined.

(** X3.  The loaded table has one row for each line that passes the
    presence test of line 20, no more and no less: the length of every
    sequence is the number of those lines. *)
Theorem X3_one_row_per_kept_line (json_loads : string -> option pyval)
  (input_files : list (list string)) (c : columns) :
  load json_loads input_files = Ok c ->
  let kept :=
    length (filter (fun l => keeps json_loads l = true) (concat input_files)) in
  length (frames c) = kept /\
  length (object_counts c) = kept /\
  length (latencies c) = kept /\
  length (sizes c) = kept.
Proof.
  intros H. destruct (load_delta _ _ _ H) as (H0 & H1 & H2 & H3 & _).
  cbv zeta. rewrite <- H0. auto.
Qed.

Lemma X3_one_row_per_kept_line_witness :
  length (latencies (cat_columns
            (push no_columns (PInt 1) (PInt 10) (Float.of_Z 5) (Float.of_Z 2))
            (push no_columns (PInt 2) (PInt 10) (Float.of_Z 15) (Float.of_Z 4))))
    = length (filter (fun l => keeps Json.loads l = true)
                (concat [[line_frame1; line_no_latency]; [line_frame2]])).
Proof.
  destruct (X3_one_row_per_kept_line Json.loads
              [[line_frame1; line_no_latency]; [line_frame2]]
              (cat_columns
                 (push no_columns (PInt 1) (PInt 10)
                       (Float.of_Z 5) (Float.of_Z 2))
                 (push no_columns (PInt 2) (PInt 10)
                       (Float.of_Z 15) (Float.of_Z 4))))
    as (_ & _ & H & _); [vm_compute; reflexivity|].
  exact H.
Defined.

(** X4.  Only the sequence of all lines matters, not how the lines are
    divided into files: two lists of files with the same lines in the
    same order give the same result, table or exception. *)
Theorem X4_file_boundaries_irrelevant (json_loads : string -> option pyval)
  (files1 files2 : list (list string)) :
  concat files1 = concat files2 ->
  load json_loads files1 = load json_loads files2 /\
  main json_loads files1 = main json_loads files2.
Proof.
  intros H.
  assert (load json_loads files1 = load json_loads files2) as Hl.
  { unfold load. rewrite !read_files_concat, H. reflexivity. }
  split; [exact Hl|]. unfold main. rewrite Hl. reflexivity.
Qed.

Lemma X4_file_boundaries_irrelevant_witness :
  load Json.loads [[line_frame1; line_no_latency]; []; [line_frame2]] =
    load Json.loads [[line_frame1]; [line_no_latency; line_frame2]] /\
  main Json.loads [[line_frame1; line_no_latency]; []; [line_frame2]] =
    main Json.loads [[line_frame1]; [line_no_latency; line_frame2]].
Proof.
  apply (X4_file_boundaries_irrelevant Json.loads). reflexivity.
Defined.

(** ** The exceptions of the record loop *)

Lemma bind_Raise {A B : Type} (r : result A) (k : A -> result B) (e : exn) :
  bind r k = Raise e -> r = Raise e \/ exists a, r = Ok a /\ k a = Raise e.
Proof. destruct r as [a|e']; simpl; [eauto | intros [= ->]; auto]. Qed.

Lemma getitem_Raise v k e :
  getitem v k = Raise e -> e = TypeError \/ e = KeyError k.
Proof.
  destruct v; simpl; try (intros [= <-]; auto).
  destruct (dict_get k d); [discriminate | intros [= <-]; auto].
Qed.

Lemma contains_Raise k v e : contains k v = Raise e -> e = TypeError.
Proof. destruct v; simpl; try discriminate; intros [= <-]; reflexivity. Qed.

Lemma py_int_Raise v e :
  py_int v = Raise e -> e = TypeError \/ e = ValueError \/ e = OverflowError.
Proof.
  destruct v as [|b|z|x|s|l|d]; simpl; try discriminate;
    try (intros [= <-]; auto).
  - destruct x; simpl; try discriminate; intros [= <-]; auto.
  - unfold int_of_str.
    destruct (match rstrip (lstrip s) with
              | String "-" s' => option_map Z.opp (int_unsigned s')
              | String "+" s' => int_unsigned s'
              | _ => int_unsigned (rstrip (lstrip s))
              end); [discriminate | intros [= <-]; auto].
Qed.

(** A division by a constant other than zero overflows or succeeds. *)
Lemma int_truediv_Raise a b e :
  b <> 0 -> int_truediv a b = Raise e -> e = OverflowError.
Proof.
  intros Hb. unfold int_truediv.
  destruct b as [|b|b]; [congruence| |];
    (destruct a as [|a|a]; [discriminate| |]);
    destruct (SFdiv_core_binary _ _ _ _ _ _) as [[q e'] l];
    destruct (binary_round_aux _ _ _ _ _ _); try discriminate;
    intros [= <-]; reflexivity.
Qed.

Lemma truediv_Raise v d e :
  d <> 0 -> truediv v d = Raise e -> e = OverflowError \/ e = TypeError.
Proof.
  intros Hd. destruct v as [|b|z|x|s|l|dd]; simpl;
    try (intros [= <-]; auto).
  - intros H. left. exact (int_truediv_Raise _ _ _ Hd H).
  - intros H. left. exact (int_truediv_Raise _ _ _ Hd H).
  - destruct (d =? 0) eqn:E; [apply Z.eqb_eq in E; congruence|discriminate].
Qed.

Ltac raise_step H :=
  let a := fresh "a" in
  let Ha := fresh "E" in
  apply bind_Raise in H; destruct H as [H|(a & Ha & H)].

Ltac escapes_key H :=
  apply getitem_Raise in H; destruct H as [->| ->]; reflexivity.

Lemma process_line_Raise json_loads st line v e :
  json_loads line = Some v ->
  process_line json_loads st line = Raise e -> escapes e = true.
Proof.
  intros Hv. unfold process_line. intros H.
  raise_step H.
  { unfold loads in H. rewrite Hv in H. discriminate. }
  raise_step H; [escapes_key H|].
  raise_step H; [apply contains_Raise in H; subst; reflexivity|].
  destruct a1; cbn [negb] in H; [|discriminate].
  raise_step H; [escapes_key H|].
  raise_step H; [escapes_key H|].
  raise_step H; [escapes_key H|].
  raise_step H; [escapes_key H|].
  raise_step H; [escapes_key H|].
  raise_step H.
  { (* the presence test passed on the value that is subscripted *)
    assert (a0 = a5) as <- by congruence.
    destruct a0; simpl in H, E1; try (injection H as <-; reflexivity).
    destruct (dict_get "latency_in_nanos" d) eqn:Hd; [discriminate|].
    vm_compute in E1. discriminate. }
  raise_step H.
  { apply py_int_Raise in H. destruct H as [->|[->| ->]]; reflexivity. }
  raise_step H.
  { apply int_truediv_Raise in H; [subst; reflexivity|discriminate]. }
  raise_step H; [escapes_key H|].
  raise_step H; [escapes_key H|].
  raise_step H; [|discriminate].
  apply truediv_Raise in H; [|discriminate].
  destruct H as [->| ->]; reflexivity.
Qed.

Lemma read_lines_Raise json_loads st f e :
  read_lines json_loads st f = Raise e ->
  exists line st0,
    In line f /\ process_line json_loads st0 line = Raise e.
Proof.
  revert st. induction f as [|line f IH]; intros st H; [discriminate|].
  simpl in H. raise_step H.
  - exists line, st. split; [left; reflexivity | exact H].
  - destruct (IH _ H) as (l & st0 & Hin & Hl).
    exists l, st0. split; [right; exact Hin | exact Hl].
Qed.

(** X5.  When every line of the log decodes, an exception of the record
    loop is the exception that lines 20 to 25 raise on one of the lines,
    and it is [TypeError], [ValueError], [OverflowError], or a [KeyError]
    for one of the keys [fields], [span], [frame_count], [object_count]
    and [msg_len].  The loop body never raises [ZeroDivisionError], and
    never a [KeyError] for [latency_in_nanos]: the subscript of line 24
    is guarded by the test of line 20. *)
Theorem X5_exceptions_of_the_loop_body (json_loads : string -> option pyval)
  (input_files : list (list string)) (e : exn) :
  Forall (fun line => json_loads line <> None) (concat input_files) ->
  load json_loads input_files = Raise e ->
  escapes e = true /\
  exists line st,
    In line (concat input_files) /\
    process_line json_loads st line = Raise e.
Proof.
  intros Hall Hload.
  unfold load in Hload. rewrite read_files_concat in Hload.
  destruct (read_lines_Raise _ _ _ _ Hload) as (line & st & Hin & Hl).
  split; [|eauto].
  rewrite Forall_forall in Hall. specialize (Hall line).
  destruct (json_loads line) as [v|] eqn:Hv.
  - exact (process_line_Raise _ _ _ _ _ Hv Hl).
  - exfalso. apply Hall; [apply list_elem_of_In, Hin | reflexivity].
Qed.

Lemma X5_exceptions_of_the_loop_body_witness :
  escapes (KeyError "fields") = true /\
  exists line st,
    In line (concat [[line_frame1]; [line_no_fields; line_frame2]]) /\
    process_line Json.loads st line = Raise (KeyError "fields").
Proof.
  apply (X5_exceptions_of_the_loop_body Json.loads
           [[line_frame1]; [line_no_fields; line_frame2]]).
  - repeat (apply Forall_cons; split; [vm_compute; discriminate|]).
    apply Forall_nil. exact I.
  - vm_compute. reflexivity.
Defined.

Lemma getitem_Ok v k x :
  getitem v k = Ok x -> exists d, v = PDict d /\ dict_get k d = Some x.
Proof.
  destruct v; simpl; try discriminate.
  destruct (dict_get k d) eqn:E; [|discriminate].
  intros [= <-]. eauto.
Qed.

(** X6.  A line adds a row only if it decodes to a JSON object that has
    an object [fields] with the keys [latency_in_nanos] and [msg_len]
    and an object [span] with the keys [frame_count] and
    [object_count]; the frame and the object count of the row are the
    two values of [span] as they are, with no conversion. *)
Theorem X6_row_only_from_full_record (json_loads : string -> option pyval)
  (st st' : columns) (line : string) :
  process_line json_loads st line = Ok st' ->
  st' <> st ->
  exists d fs sp fc oc nanos msg_len,
    json_loads line = Some (PDict d) /\
    dict_get "fields" d = Some (PDict fs) /\
    dict_get "span" d = Some (PDict sp) /\
    dict_get "latency_in_nanos" fs = Some nanos /\
    dict_get "msg_len" fs = Some msg_len /\
    dict_get "frame_count" sp = Some fc /\
    dict_get "object_count" sp = Some oc /\
    frames st' = frames st ++ [fc] /\
    object_counts st' = object_counts st ++ [oc].
Proof.
  intros H Hne.
  destruct (json_loads line) as [data|] eqn:Hl.
  2:{ rewrite (process_line_unparsed _ _ _ Hl) in H. discriminate. }
  rewrite (process_line_eq json_loads st line data Hl) in H.
  bind_step H. bind_step H.
  destruct a0; cbn [negb] in H; [|injection H as <-; congruence].
  bind_step H. destruct a0 as [[[fc oc] ms] kb]. injection H as <-.
  unfold extract in E1. repeat bind_step E1. injection E1 as <- <- <- <-.
  destruct (getitem_Ok _ _ _ E) as (d & -> & Hfields).
  destruct (getitem_Ok _ _ _ E2) as (d' & [= <-] & Hspan).
  destruct (getitem_Ok _ _ _ E3) as (sp & -> & Hfc).
  destruct (getitem_Ok _ _ _ E4) as (sp' & [= <-] & Hoc).
  destruct (getitem_Ok _ _ _ E5) as (d' & [= <-] & Hfields').
  destruct (getitem_Ok _ _ _ E6) as (fs & -> & Hn).
  destruct (getitem_Ok _ _ _ E9) as (fs' & Hfs & Hm).
  assert (a = PDict fs) as -> by congruence.
  injection Hfs as <-.
  exists d, fs, sp, a1, a2, a4, a7. repeat split; assumption.
Qed.

Lemma X6_row_only_from_full_record_witness :
  exists d fs sp fc oc nanos msg_len,
    Json.loads line_frame1 = Some (PDict d) /\
    dict_get "fields" d = Some (PDict fs) /\
    dict_get "span" d = Some (PDict sp) /\
    dict_get "latency_in_nanos" fs = Some nanos /\
    dict_get "msg_len" fs = Some msg_len /\
    dict_get "frame_count" sp = Some fc /\
    dict_get "object_count" sp = Some oc /\
    frames (push no_columns (PInt 1) (PInt 10) (Float.of_Z 5) (Float.of_Z 2))
      = frames no_columns ++ [fc] /\
    object_counts (push no_columns (PInt 1) (PInt 10)
                        (Float.of_Z 5) (Float.of_Z 2))
      = object_counts no_columns ++ [oc].
Proof.
  apply (X6_row_only_from_full_record Json.loads no_columns).
  - vm_compute. reflexivity.
  - discriminate.
Defined.

(** ** The two divisions *)

Lemma shr_1_nonneg mrs : 0 <= shr_m mrs -> 0 <= shr_m (shr_1 mrs).
Proof.
  destruct mrs as [m r s]. simpl.
  destruct m as [|[p|p|]|[p|p|]]; simpl; lia.
Qed.

Lemma iter_pos_shr_1_nonneg p mrs :
  0 <= shr_m mrs -> 0 <= shr_m (SpecFloat.iter_pos shr_1 p mrs).
Proof.
  revert mrs. induction p as [p IH|p IH|]; intros mrs H; simpl.
  - apply IH, IH, shr_1_nonneg, H.
  - apply IH, IH, H.
  - apply shr_1_nonneg, H.
Qed.

Lemma shr_fexp_nonneg m e l :
  0 <= m -> 0 <= shr_m (fst (shr_fexp Float.prec Float.emax m e l)).
Proof.
  intros H. unfold shr_fexp, shr.
  assert (0 <= shr_m (shr_record_of_loc m l)) as H'.
  { destruct l as [|[]]; exact H. }
  destruct (fexp Float.prec Float.emax (Zdigits2 m + e) - e); simpl;
    try exact H'.
  apply iter_pos_shr_1_nonneg, H'.
Qed.

Lemma round_nearest_even_nonneg m l : 0 <= m -> 0 <= round_nearest_even m l.
Proof.
  intros H. destruct l as [|[]]; simpl; try lia.
  destruct (Z.even m); lia.
Qed.

(** Rounding a number that is not negative never gives NaN. *)
Lemma binary_round_aux_not_nan s m e l :
  0 <= m -> binary_round_aux Float.prec Float.emax s m e l <> S754_nan.
Proof.
  intros H. unfold binary_round_aux.
  pose proof (shr_fexp_nonneg m e l H) as H1.
  destruct (shr_fexp Float.prec Float.emax m e l) as [mrs' e'].
  simpl in H1.
  pose proof (shr_fexp_nonneg _ e' loc_Exact
                (round_nearest_even_nonneg (shr_m mrs')
                   (loc_of_shr_record mrs') H1)) as H2.
  destruct (shr_fexp Float.prec Float.emax _ e' loc_Exact) as [mrs'' e''].
  simpl in H2.
  destruct (shr_m mrs''); try lia; try discriminate.
  destruct (e'' <=? Float.emax - Float.prec); discriminate.
Qed.

Lemma div_core_nonneg a b :
  0 <= a -> 0 < b ->
  0 <= fst (fst (SFdiv_core_binary Float.prec Float.emax a 0 b 0)).
Proof.
  intros Ha Hb. unfold SFdiv_core_binary.
  set (s := 0 - 0 - _).
  assert (0 <= match s with
               | Z0 => a
               | Zpos _ => Z.shiftl a s
               | Zneg _ => 0
               end) as Hm.
  { destruct s eqn:E; try lia. apply Z.shiftl_nonneg. exact Ha. }
  pose proof (Z.div_eucl_eq (match s with
               | Z0 => a
               | Zpos _ => Z.shiftl a s
               | Zneg _ => 0
               end) b ltac:(lia)) as Heq.
  pose proof (Z.mod_pos_bound (match s with
               | Z0 => a
               | Zpos _ => Z.shiftl a s
               | Zneg _ => 0
               end) b Hb) as Hr.
  unfold Z.modulo in Hr.
  destruct (Z.div_eucl _ b) as [q r]. simpl. nia.
Qed.

(** An integer division that raises nothing gives a number. *)
Lemma int_truediv_finite a b x :
  int_truediv a b = Ok x -> is_finite x = true.
Proof.
  unfold int_truediv.
  destruct b as [|b|b]; [discriminate| |];
    (destruct a as [|a|a]; [intros [= <-]; reflexivity| |]).
  all: match goal with
       | |- context [SFdiv_core_binary ?p ?em ?x 0 ?y 0] =>
           pose proof (div_core_nonneg x y ltac:(simpl; lia) ltac:(simpl; lia))
             as Hq;
           destruct (SFdiv_core_binary p em x 0 y 0) as [[q e'] l]
       end.
  all: simpl in Hq.
  all: match goal with
       | |- context [binary_round_aux ?p ?em ?s ?q0 ?e0 ?l0] =>
           pose proof (binary_round_aux_not_nan s q0 e0 l0 Hq) as Hn;
           destruct (binary_round_aux p em s q0 e0 l0)
       end.
  all: try discriminate; try congruence; intros [= <-]; reflexivity.
Qed.

Lemma process_line_latency_finite json_loads st line st' :
  process_line json_loads st line = Ok st' ->
  Forall (fun x => is_finite x = true) (latencies st) ->
  Forall (fun x => is_finite x = true) (latencies st').
Proof.
  intros H Hst.
  destruct (json_loads line) as [data|] eqn:Hl.
  2:{ rewrite (process_line_unparsed _ _ _ Hl) in H. discriminate. }
  rewrite (process_line_eq json_loads st line data Hl) in H.
  bind_step H. bind_step H.
  destruct a0; cbn [negb] in H; [|injection H as <-; exact Hst].
  bind_step H. destruct a0 as [[[fc oc] ms] kb]. injection H as <-.
  unfold extract in E1. repeat bind_step E1. injection E1 as <- <- <- <-.
  simpl. apply Forall_app. split; [exact Hst|].
  constructor; [|constructor].
  eapply int_truediv_finite. eassumption.
Qed.

Lemma read_lines_latency_finite json_loads st f st' :
  read_lines json_loads st f = Ok st' ->
  Forall (fun x => is_finite x = true) (latencies st) ->
  Forall (fun x => is_finite x = true) (latencies st').
Proof.
  revert st. induction f as [|line f IH]; intros st H Hst.
  - injection H as <-. exact Hst.
  - simpl in H. bind_step H.
    apply (IH _ H). eapply process_line_latency_finite; eassumption.
Qed.

Lemma zip_rows_Latency fs os ls ss df :
  zip_rows fs os ls ss = Some df -> map Latency df = ls.
Proof.
  revert os ls ss df. induction fs as [|f fs IH]; intros os ls ss df H.
  - destruct os, ls, ss; try discriminate. injection H as <-. reflexivity.
  - destruct os as [|o os], ls as [|l ls], ss as [|s ss]; try discriminate.
    simpl in H. destruct (as_int f), (as_int o); try discriminate.
    destruct (zip_rows fs os ls ss) as [rest|] eqn:E; [|discriminate].
    injection H as <-. simpl. f_equal. exact (IH _ _ _ _ E).
Qed.

(** X7.  Every latency that the loop stores is a number: whatever the
    lines hold, the latency column of the table has no NaN and no
    infinity.  A quotient too large for a float raises [OverflowError]
    and is not stored. *)
Theorem X7_latencies_are_finite (json_loads : string -> option pyval)
  (input_files : list (list string)) (c : columns) :
  load json_loads input_files = Ok c ->
  Forall (fun x => is_finite x = true) (latencies c) /\
  forall df, DataFrame c = Ok (Some df) ->
    Forall (fun r => is_finite (Latency r) = true) df.
Proof.
  intros H.
  assert (Forall (fun x => is_finite x = true) (latencies c)) as Hc.
  { unfold load in H. rewrite read_files_concat in H.
    apply (read_lines_latency_finite _ _ _ _ H). constructor. }
  split; [exact Hc|].
  intros df Hdf. unfold DataFrame in Hdf.
  destruct (same_length c); [|discriminate].
  destruct (frames c) eqn:Hf; [discriminate|]. rewrite <- Hf in Hdf.
  injection Hdf as Hdf. apply zip_rows_Latency in Hdf.
  rewrite <- Hdf in Hc. apply Forall_map in Hc. exact Hc.
Qed.

Lemma X7_latencies_are_finite_witness :
  Forall (fun x => is_finite x = true)
    (latencies (cat_columns
       (push no_columns (PInt 1) (PInt 10) (Float.of_Z 5) (Float.of_Z 2))
       (push no_columns (PInt 2) (PInt 10) (Float.of_Z 15) (Float.of_Z 4)))) /\
  Forall (fun r => is_finite (Latency r) = true)
    [Row 1 10 (Float.of_Z 5) (Float.of_Z 2);
     Row 2 10 (Float.of_Z 15) (Float.of_Z 4)].
Proof.
  destruct (X7_latencies_are_finite Json.loads
              [[line_frame1; line_no_latency]; [line_frame2]]
              (cat_columns
                 (push no_columns (PInt 1) (PInt 10)
                       (Float.of_Z 5) (Float.of_Z 2))
                 (push no_columns (PInt 2) (PInt 10)
                       (Float.of_Z 15) (Float.of_Z 4))))
    as [Hc Hdf]; [vm_compute; reflexivity|].
  split; [exact Hc|]. apply Hdf. vm_compute. reflexivity.
Defined.

(** *** The size: a division by a power of two *)

Lemma digits2_pos_size p : digits2_pos p = Pos.size p.
Proof. induction p as [p IH|p IH|]; simpl; [rewrite IH..|]; reflexivity. Qed.

Lemma digits2_pos_bound p n :
  Zpos p < 2 ^ n -> Zpos (digits2_pos p) <= n.
Proof.
  intros H. rewrite digits2_pos_size.
  pose proof (Pos.size_le p) as Hle.
  apply Pos2Z.pos_le_pos in Hle. rewrite Pos2Z.inj_pow in Hle.
  change (Z.pos p~0) with (2 * Z.pos p) in Hle.
  destruct (Z_le_gt_dec (Z.pos (Pos.size p)) n) as [Hok|Hgt]; [exact Hok|].
  exfalso.
  assert (0 <= n) as Hn.
  { destruct (Z_le_gt_dec 0 n); [assumption|].
    rewrite Z.pow_neg_r in H by lia. lia. }
  assert (2 ^ (n + 1) <= 2 ^ Z.pos (Pos.size p)) as Hpow
    by (apply Z.pow_le_mono_r; lia).
  rewrite Z.pow_add_r in Hpow by lia. lia.
Qed.

Lemma shiftl_nat_value p n :
  Zpos (Pos.shiftl_nat p n) = Zpos p * 2 ^ Z.of_nat n.
Proof.
  induction n as [|n IH]; [simpl; lia|].
  change (Pos.shiftl_nat p (S n)) with ((Pos.shiftl_nat p n)~0)%positive.
  rewrite Nat2Z.inj_succ, Z.pow_succ_r by lia.
  change (Z.pos (Pos.shiftl_nat p n)~0) with (2 * Z.pos (Pos.shiftl_nat p n)).
  rewrite IH. lia.
Qed.

Lemma shiftl_nat_digits p n :
  Zpos (digits2_pos (Pos.shiftl_nat p n)) =
    Zpos (digits2_pos p) + Z.of_nat n.
Proof.
  induction n as [|n IH]; [simpl; lia|].
  change (Pos.shiftl_nat p (S n)) with ((Pos.shiftl_nat p n)~0)%positive.
  cbn [digits2_pos].
  change (PosDef.Pos.succ (digits2_pos (Pos.shiftl_nat p n)))
    with (Pos.succ (digits2_pos (Pos.shiftl_nat p n))).
  rewrite Pos2Z.inj_succ, IH. lia.
Qed.

(** The quotient of a number below [2^53] by 1024, before rounding: the
    number itself at a lower exponent, and no remainder. *)
Lemma div_core_1024 p :
  Zpos p < 2 ^ 53 ->
  SFdiv_core_binary Float.prec Float.emax (Zpos p) 0 1024 0 =
    (Zpos p * 2 ^ (54 - Zpos (digits2_pos p)),
     Zpos (digits2_pos p) - 64, loc_Exact).
Proof.
  intros Hp. pose proof (digits2_pos_bound p 53 Hp) as Hd.
  unfold SFdiv_core_binary. cbn [Zdigits2].
  change (Z.pos (digits2_pos 1024)) with 11.
  unfold fexp, emin, Float.prec, Float.emax.
  set (d := Z.pos (digits2_pos p)) in *.
  assert (0 < d) as Hd0 by (unfold d; lia).
  replace (Z.min (Z.max (d + 0 - (11 + 0) - 53) (3 - 1024 - 53)) (0 - 0))
    with (d - 64) by lia.
  replace (0 - 0 - (d - 64)) with (Z.pos (Z.to_pos (64 - d)))
    by (rewrite Z2Pos.id; lia).
  rewrite Z.shiftl_mul_pow2 by lia. rewrite Z2Pos.id by lia.
  replace (Z.pos p * 2 ^ (64 - d)) with (Z.pos p * 2 ^ (54 - d) * 1024).
  2:{ replace (64 - d) with ((54 - d) + 10) by lia.
      rewrite Z.pow_add_r by lia. change (2 ^ 10) with 1024. lia. }
  rewrite div_eucl_exact by lia. reflexivity.
Qed.

Lemma int_truediv_1024 a p :
  Z.abs a = Zpos p -> Zpos p < 2 ^ 53 ->
  int_truediv a 1024 =
    Ok (S754_finite (a <? 0)
          (Pos.shiftl_nat p (Z.to_nat (53 - Zpos (digits2_pos p))))
          (Zpos (digits2_pos p) - 63)).
Proof.
  intros Ha Hp. pose proof (digits2_pos_bound p 53 Hp) as Hd.
  unfold int_truediv. destruct a as [|a|a]; [discriminate| |];
    injection Ha as ->;
    change (Z.abs 1024) with 1024;
    [change (Z.abs (Z.pos p)) with (Z.pos p)
    |change (Z.abs (Z.neg p)) with (Z.pos p)];
    rewrite (div_core_1024 p Hp).
  all: set (d := Z.pos (digits2_pos p)) in *.
  all: set (m := Pos.shiftl_nat p (Z.to_nat (53 - d))).
  all: assert (0 < d) as Hd0 by (unfold d; lia).
  all: assert (Z.pos p * 2 ^ (54 - d) = Z.pos m~0) as ->.
  1,3: change (Z.pos m~0) with (2 * Z.pos m); unfold m;
       rewrite shiftl_nat_value, Z2Nat.id by lia;
       replace (54 - d) with (1 + (53 - d)) by lia;
       rewrite Z.pow_add_r by lia; change (2 ^ 1) with 2; lia.
  all: replace (d - 64) with (d - 63 - 1) by lia.
  all: rewrite binary_round_aux_double; [reflexivity|].
  all: unfold bounded, canonical_mantissa, fexp, emin, Float.prec, Float.emax.
  all: unfold m; rewrite shiftl_nat_digits, Z2Nat.id by lia.
  all: fold d; apply andb_true_intro; split;
       [apply Z.eqb_eq|apply Z.leb_le]; lia.
Qed.

(** X8.  The conversion of the size is exact: for a message length of
    magnitude below [2^53] the quotient by 1024 of line 25 raises nothing
    and is the binary64 number equal to [msg_len / 1024], with no
    rounding at all. *)
Theorem X8_size_conversion_is_exact (msg_len : Z) :
  - 2 ^ 53 < msg_len < 2 ^ 53 ->
  exists kb : float,
    truediv (PInt msg_len) 1024 = Ok kb /\
    exact_quotient kb msg_len 1024 /\
    Float.valid kb = true.
Proof.
  intros Hm. cbn [truediv].
  destruct (Z.eq_dec msg_len 0) as [->|Hne].
  { exists (S754_zero false). repeat split. }
  assert (exists p, Z.abs msg_len = Zpos p) as [p Hp].
  { destruct msg_len as [|q|q]; [congruence|exists q|exists q]; reflexivity. }
  assert (Zpos p < 2 ^ 53) as Hlt by lia.
  pose proof (digits2_pos_bound p 53 Hlt) as Hd.
  rewrite (int_truediv_1024 msg_len p Hp Hlt).
  eexists. split; [reflexivity|].
  set (d := Z.pos (digits2_pos p)) in *.
  assert (0 < d) as Hd0 by (unfold d; lia).
  split.
  - unfold exact_quotient.
    replace (0 <=? d - 63) with false by (symmetry; apply Z.leb_gt; lia).
    replace (- (d - 63)) with ((53 - d) + 10) by lia.
    rewrite Z.pow_add_r by lia. change (2 ^ 10) with 1024.
    assert (Z.pos (Pos.shiftl_nat p (Z.to_nat (53 - d))) =
            Z.pos p * 2 ^ (53 - d)) as Hv
      by (rewrite shiftl_nat_value, Z2Nat.id by lia; reflexivity).
    destruct msg_len as [|q|q]; [congruence| |]; simpl in Hp;
      injection Hp as ->; cbn [Z.ltb Z.compare].
    + rewrite Hv. lia.
    + change (Z.neg (Pos.shiftl_nat p (Z.to_nat (53 - d))))
        with (- Z.pos (Pos.shiftl_nat p (Z.to_nat (53 - d)))).
      rewrite Hv. lia.
  - unfold Float.valid, valid_binary, bounded, canonical_mantissa, fexp, emin,
      Float.prec, Float.emax.
    rewrite shiftl_nat_digits, Z2Nat.id by lia. fold d.
    apply andb_true_intro. split; [apply Z.eqb_eq|apply Z.leb_le]; lia.
Qed.

Lemma X8_size_conversion_is_exact_witness :
  exists kb : float,
    truediv (PInt 1500) 1024 = Ok kb /\
    exact_quotient kb 1500 1024 /\
    Float.valid kb = true.
Proof. apply (X8_size_conversion_is_exact 1500). lia. Defined.

(** ** The aggregation *)

(** X9.  The key column of the final table is the list of the distinct
    object counts of the records, in ascending order: no object count of
    a record is lost, none is invented, and the table has at most as
    many rows as there are records. *)
Theorem X9_key_column (df : list row) :
  map object_count (aggregate df) =
    merge_sort Z.le (remove_dups (map Object_Count df)) /\
  (forall o, o ∈ map object_count (aggregate df) <-> o ∈ map Object_Count df) /\
  (length (aggregate df) <= length df)%nat.
Proof.
  assert (NoDup (map object_count (aggregate df))) as Hnd.
  { rewrite aggregate_eq, groupby_mean_keys.
    apply (sorted_NoDup Z.compare), (sorted_keys_sorted Z.compare). }
  split; [|split].
  - apply (StronglySorted_unique Z.le).
    + rewrite aggregate_eq, groupby_mean_keys.
      eapply StronglySorted_mono; [|apply (sorted_keys_sorted Z.compare)].
      intros x y. unfold cmp_lt. rewrite Z.compare_lt_iff. lia.
    + apply StronglySorted_merge_sort; apply _.
    + rewrite merge_sort_Permutation. apply NoDup_Permutation.
      * exact Hnd.
      * apply NoDup_remove_dups.
      * intros o. rewrite elem_of_remove_dups. apply aggregate_object_counts.
  - apply aggregate_object_counts.
  - rewrite <- (length_map object_count (aggregate df)).
    rewrite <- (length_map Object_Count df).
    apply submseteq_length, NoDup_submseteq; [exact Hnd|].
    intros o. apply aggregate_object_counts.
Qed.

(** X10.  When no (frame, object_count) pair repeats and the values are
    numbers other than the negative zero, the first grouping changes
    nothing but the order: it returns the rows of the table, sorted by
    frame and then by object count, with their values as they are. *)
Theorem X10_stage1_keeps_distinct_pairs (df : list row) :
  NoDup (map row_key df) ->
  (forall r, r ∈ df -> regular_row r) ->
  groupby_sum df ≡ₚ df /\
  StronglySorted (cmp_lt key_cmp) (map row_key (groupby_sum df)).
Proof.
  intros Hnd Hreg. split.
  - apply groupby_sum_distinct; assumption.
  - rewrite groupby_sum_keys. apply (sorted_keys_sorted key_cmp).
Qed.

Lemma X10_stage1_keeps_distinct_pairs_witness :
  groupby_sum table_distinct_pairs ≡ₚ table_distinct_pairs /\
  StronglySorted (cmp_lt key_cmp)
    (map row_key (groupby_sum table_distinct_pairs)).
Proof.
  apply (X10_stage1_keeps_distinct_pairs table_distinct_pairs).
  - simpl. repeat constructor; simpl; intros H;
      repeat (apply elem_of_cons in H; destruct H as [H|H]; [discriminate|]);
      inversion H.
  - intros r Hr. unfold table_distinct_pairs in Hr.
    repeat (apply elem_of_cons in Hr; destruct Hr as [->|Hr];
            [regular_value|]).
    inversion Hr.
Defined.

(** X11.  When no (frame, object_count) pair repeats, the final table
    does not depend on the order of the records at all: every
    permutation of the table gives the same rows with the same values. *)
Theorem X11_order_irrelevant_for_distinct_pairs (df df' : list row) :
  NoDup (map row_key df) ->
  df ≡ₚ df' ->
  aggregate df = aggregate df'.
Proof. apply aggregate_Permutation_distinct. Qed.

Lemma X11_order_irrelevant_for_distinct_pairs_witness :
  aggregate table_distinct_pairs = aggregate table_distinct_pairs_reordered.
Proof.
  apply (X11_order_irrelevant_for_distinct_pairs
           table_distinct_pairs table_distinct_pairs_reordered).
  - simpl. repeat constructor; simpl; intros H;
      repeat (apply elem_of_cons in H; destruct H as [H|H]; [discriminate|]);
      inversion H.
  - unfold table_distinct_pairs, table_distinct_pairs_reordered.
    symmetry. apply (Permutation_cons_append [_; _]).
Defined.

(** ** [int] on a float that holds an integer *)

Lemma iter_xO_shiftl_nat p k :
  Pos.iter xO p k = Pos.shiftl_nat p (Pos.to_nat k).
Proof.
  induction k as [|k IH] using Pos.peano_ind; [reflexivity|].
  rewrite Pos.iter_succ, Pos2Nat.inj_succ, IH. reflexivity.
Qed.

(** The float of an integer below [2^53]: the integer, shifted to 53
    digits. *)
Lemma of_Z_small n p :
  Z.abs n = Zpos p -> Zpos p < 2 ^ 53 ->
  Float.of_Z n =
    S754_finite (n <? 0)
      (Pos.shiftl_nat p (Z.to_nat (53 - Zpos (digits2_pos p))))
      (Zpos (digits2_pos p) - 53).
Proof.
  intros Hn Hp. pose proof (digits2_pos_bound p 53 Hp) as Hd.
  assert (forall s,
    binary_round Float.prec Float.emax s p 0 =
      S754_finite s
        (Pos.shiftl_nat p (Z.to_nat (53 - Zpos (digits2_pos p))))
        (Zpos (digits2_pos p) - 53)) as Hround.
  { intros s. unfold binary_round, shl_align.
    set (d := Z.pos (digits2_pos p)) in *.
    assert (0 < d) as Hd0 by (unfold d; lia).
    assert (fexp Float.prec Float.emax (d + 0) = d - 53) as ->
      by (unfold fexp, emin, Float.prec, Float.emax; lia).
    assert (bounded Float.prec Float.emax
              (Pos.shiftl_nat p (Z.to_nat (53 - d))) (d - 53) = true) as Hb.
    { unfold bounded, canonical_mantissa, fexp, emin, Float.prec, Float.emax.
      rewrite shiftl_nat_digits, Z2Nat.id by lia. fold d.
      apply andb_true_intro. split; [apply Z.eqb_eq|apply Z.leb_le]; lia. }
    destruct (d - 53 - 0) as [|k|k] eqn:E; try lia.
    - assert (d = 53) as Hd53 by lia. rewrite Hd53 in *.
      change (Z.to_nat (53 - 53)) with O in *.
      change (Pos.shiftl_nat p 0) with p in *.
      change (53 - 53) with 0 in Hb.
      apply binary_round_aux_bounded, Hb.
    - rewrite iter_xO_shiftl_nat.
      assert (Pos.to_nat k = Z.to_nat (53 - d)) as -> by lia.
      apply binary_round_aux_bounded, Hb. }
  unfold Float.of_Z, binary_normalize.
  destruct n as [|q|q]; [discriminate| |]; injection Hn as ->; apply Hround.
Qed.

(** X12.  [int] undoes the conversion of an integer to a float: for a
    latency of magnitude below [2^53] that the log gives as a float
    holding an integer, line 24 computes the same quotient as for the
    integer itself. *)
Theorem X12_int_of_integral_float (n : Z) :
  - 2 ^ 53 < n < 2 ^ 53 ->
  py_int (PFloat (Float.of_Z n)) = Ok n /\
  (let* k := py_int (PFloat (Float.of_Z n)) in int_truediv k 1000000) =
    int_truediv n 1000000.
Proof.
  intros Hn.
  assert (py_int (PFloat (Float.of_Z n)) = Ok n) as Hint.
  { destruct (Z.eq_dec n 0) as [->|Hne]; [reflexivity|].
    assert (exists p, Z.abs n = Zpos p) as [p Hp].
    { destruct n as [|q|q]; [congruence|exists q|exists q]; reflexivity. }
    assert (Zpos p < 2 ^ 53) as Hlt by lia.
    pose proof (digits2_pos_bound p 53 Hlt) as Hd.
    rewrite (of_Z_small n p Hp Hlt). cbn [py_int float_trunc].
    set (d := Z.pos (digits2_pos p)) in *.
    assert (0 < d) as Hd0 by (unfold d; lia).
    rewrite Z.shiftl_div_pow2 by lia.
    rewrite shiftl_nat_value, Z2Nat.id by lia.
    replace (- (d - 53)) with (53 - d) by lia.
    rewrite Z.div_mul by (apply Z.pow_nonzero; lia).
    destruct n as [|q|q]; [congruence| |]; simpl in Hp; injection Hp as ->;
      reflexivity. }
  split; [exact Hint|]. rewrite Hint. reflexivity.
Qed.

Lemma X12_int_of_integral_float_witness :
  py_int (PFloat (Float.of_Z 5000000)) = Ok 5000000 /\
  (let* k := py_int (PFloat (Float.of_Z 5000000)) in int_truediv k 1000000) =
    int_truediv 5000000 1000000.
Proof. apply (X12_int_of_integral_float 5000000). lia. Defined.

(** ** Quotients that do not overflow *)

Lemma Zdigits2_bound m k : 0 <= m < 2 ^ k -> 0 <= k -> Zdigits2 m <= k.
Proof.
  intros [H0 Hk] Hk0. destruct m as [|p|p]; simpl; try lia.
  apply digits2_pos_bound, Hk.
Qed.

Lemma shr_1_div mrs : 0 <= shr_m mrs -> shr_m (shr_1 mrs) = shr_m mrs / 2.
Proof.
  destruct mrs as [m r s]. simpl. intros H.
  destruct m as [|[p|p|]|p]; try lia; simpl.
  - reflexivity.
  - replace (Z.pos p~1) with (1 + Z.pos p * 2) by lia.
    rewrite Z.div_add by lia. reflexivity.
  - replace (Z.pos p~0) with (Z.pos p * 2) by lia.
    rewrite Z.div_mul by lia. reflexivity.
  - reflexivity.
Qed.

Lemma iter_pos_shr_1_div p mrs :
  0 <= shr_m mrs ->
  shr_m (SpecFloat.iter_pos shr_1 p mrs) = shr_m mrs / 2 ^ Zpos p.
Proof.
  revert mrs. induction p as [p IH|p IH|]; intros mrs H; simpl.
  - rewrite IH by (apply iter_pos_shr_1_nonneg, shr_1_nonneg, H).
    rewrite IH by (apply shr_1_nonneg, H).
    rewrite shr_1_div by exact H.
    rewrite !Z.div_div
      by (first [lia | apply Z.pow_nonzero; lia | apply Z.pow_pos_nonneg; lia]).
    f_equal. replace (Z.pos p~1) with (1 + (Z.pos p + Z.pos p)) by lia.
    rewrite !Z.pow_add_r by lia. reflexivity.
  - rewrite IH by (apply iter_pos_shr_1_nonneg, H).
    rewrite IH by exact H.
    rewrite Z.div_div
      by (first [apply Z.pow_nonzero; lia | apply Z.pow_pos_nonneg; lia]).
    f_equal. replace (Z.pos p~0) with (Z.pos p + Z.pos p) by lia.
    rewrite Z.pow_add_r by lia. reflexivity.
  - apply shr_1_div, H.
Qed.

(** One shift to the exponent of the format keeps a number below [2^K]. *)
Lemma shr_fexp_below K m e l :
  - 1021 <= K -> 0 <= m < 2 ^ (K - e) -> e <= K - 53 ->
  0 <= shr_m (fst (shr_fexp Float.prec Float.emax m e l)) <
    2 ^ (K - snd (shr_fexp Float.prec Float.emax m e l)) /\
  snd (shr_fexp Float.prec Float.emax m e l) <= K - 53.
Proof.
  intros HK [Hm0 Hm] He.
  pose proof (Zdigits2_bound m (K - e) (conj Hm0 Hm) ltac:(lia)) as Hd.
  unfold shr_fexp, shr.
  assert (shr_m (shr_record_of_loc m l) = m) as Hrec
    by (destruct l as [|[]]; reflexivity).
  assert (fexp Float.prec Float.emax (Zdigits2 m + e) <= K - 53) as Hf
    by (unfold fexp, emin, Float.prec, Float.emax; lia).
  destruct (fexp Float.prec Float.emax (Zdigits2 m + e) - e) as [|n|n] eqn:E;
    cbn [fst snd]; rewrite ?Hrec.
  - split; [split|]; assumption.
  - rewrite iter_pos_shr_1_div by lia. rewrite Hrec.
    split; [split|]; try lia.
    + apply Z.div_pos; [lia|]. apply Z.pow_pos_nonneg; lia.
    + apply Z.div_lt_upper_bound; [apply Z.pow_pos_nonneg; lia|].
      rewrite <- Z.pow_add_r by lia.
      replace (Z.pos n + (K - (e + Z.pos n))) with (K - e) by lia.
      exact Hm.
  - split; [split|]; assumption.
Qed.

Lemma round_nearest_even_le m l : round_nearest_even m l <= m + 1.
Proof.
  destruct l as [|[]]; simpl; try lia. destruct (Z.even m); lia.
Qed.

(** Rounding a number below [2^1023] gives a number. *)
Lemma binary_round_aux_finite s m e l :
  0 <= m < 2 ^ (1023 - e) -> e <= 970 ->
  is_finite (binary_round_aux Float.prec Float.emax s m e l) = true.
Proof.
  intros Hm He. unfold binary_round_aux.
  pose proof (shr_fexp_below 1023 m e l ltac:(lia) Hm ltac:(lia))
    as [[H1 H2] H3].
  destruct (shr_fexp Float.prec Float.emax m e l) as [mrs' e'].
  cbn [fst snd] in H1, H2, H3.
  pose proof (round_nearest_even_nonneg (shr_m mrs')
                (loc_of_shr_record mrs') H1) as Hr0.
  pose proof (round_nearest_even_le (shr_m mrs')
                (loc_of_shr_record mrs')) as Hr1.
  assert (2 ^ (1024 - e') = 2 * 2 ^ (1023 - e')) as Hpow.
  { replace (1024 - e') with (1 + (1023 - e')) by lia.
    rewrite Z.pow_add_r by lia. reflexivity. }
  pose proof (shr_fexp_below 1024
                (round_nearest_even (shr_m mrs') (loc_of_shr_record mrs'))
                e' loc_Exact ltac:(lia) ltac:(lia) ltac:(lia))
    as [[H4 H5] H6].
  destruct (shr_fexp Float.prec Float.emax _ e' loc_Exact) as [mrs'' e''].
  cbn [fst snd] in H4, H5, H6.
  destruct (shr_m mrs''); try lia; try reflexivity.
  replace (e'' <=? Float.emax - Float.prec) with true; [reflexivity|].
  symmetry. apply Z.leb_le. unfold Float.emax, Float.prec. lia.
Qed.

Lemma div_core_below a b :
  0 < a < 2 ^ 1023 -> 0 < b ->
  let '(q, e, l) := SFdiv_core_binary Float.prec Float.emax a 0 b 0 in
  0 <= q < 2 ^ (1023 - e) /\ e <= 0.
Proof.
  intros [Ha0 Ha] Hb. unfold SFdiv_core_binary.
  set (e' := Z.min _ (0 - 0)).
  assert (e' <= 0) as He by (unfold e'; lia).
  set (m' := match 0 - 0 - e' with
             | Z0 => a
             | Zpos _ => Z.shiftl a (0 - 0 - e')
             | Zneg _ => 0
             end).
  assert (m' = a * 2 ^ (- e')) as Hm'.
  { unfold m'. destruct (0 - 0 - e') as [|s|s] eqn:E; try lia.
    - replace (- e') with 0 by lia. lia.
    - rewrite Z.shiftl_mul_pow2 by lia. f_equal. f_equal. lia. }
  pose proof (Z.div_eucl_eq m' b ltac:(lia)) as Heq.
  pose proof (Z.mod_pos_bound m' b Hb) as Hr.
  unfold Z.modulo in Hr.
  destruct (Z.div_eucl m' b) as [q r].
  assert (0 < 2 ^ (- e')) as Hpow by (apply Z.pow_pos_nonneg; lia).
  assert (m' < 2 ^ (1023 - e')) as Hlt.
  { rewrite Hm'. replace (1023 - e') with (1023 + - e') by lia.
    rewrite Z.pow_add_r by lia. nia. }
  split; [split|exact He]; nia.
Qed.

(** A quotient of integers whose dividend is below [2^1023] does not
    overflow. *)
Lemma int_truediv_total a b :
  - 2 ^ 1023 < a < 2 ^ 1023 -> b <> 0 ->
  exists x, int_truediv a b = Ok x /\ is_finite x = true.
Proof.
  intros Ha Hb.
  assert (forall s p q,
            Zpos p < 2 ^ 1023 ->
            exists x,
              (let '(q0, e, l) :=
                 SFdiv_core_binary Float.prec Float.emax (Zpos p) 0 (Zpos q) 0 in
               match binary_round_aux Float.prec Float.emax s q0 e l with
               | S754_infinity _ => Raise OverflowError
               | y => Ok y
               end) = Ok x /\ is_finite x = true) as Hcore.
  { intros s p q Hp.
    pose proof (div_core_below (Zpos p) (Zpos q) ltac:(lia) ltac:(lia)) as H.
    destruct (SFdiv_core_binary Float.prec Float.emax (Zpos p) 0 (Zpos q) 0)
      as [[q0 e] l].
    destruct H as [Hq He].
    pose proof (binary_round_aux_finite s q0 e l Hq ltac:(lia)) as Hfin.
    destruct (binary_round_aux Float.prec Float.emax s q0 e l);
      try discriminate; eexists; split; reflexivity || exact Hfin. }
  unfold int_truediv.
  destruct b as [|q|q]; [congruence| |];
    (destruct a as [|p|p]; [eexists; split; reflexivity| |]);
    apply Hcore; lia.
Qed.

Lemma process_line_conforms json_loads st line :
  conforms json_loads line ->
  exists st', process_line json_loads st line = Ok st'.
Proof.
  intros (d & fs & Hl & Hf & [Hn|Hrec]).
  - exists st. apply (process_line_absent json_loads st line d fs); assumption.
  - destruct Hrec as (sp & fc & oc & n & m & Hs & Hfc & Hoc & Hn & Hm & Bn & Bm).
    rewrite (process_line_kept json_loads st line d fs Hl Hf)
      by (rewrite Hn; eauto).
    destruct (int_truediv_total n 1000000 Bn ltac:(discriminate))
      as (ms & Hms & _).
    destruct (int_truediv_total m 1024 Bm ltac:(discriminate))
      as (kb & Hkb & _).
    exists (push st fc oc ms kb).
    unfold extract, getitem. rewrite Hs. cbn [bind]. rewrite Hfc, Hoc.
    cbn [bind]. rewrite Hf. cbn [bind]. rewrite Hn. cbn [bind py_int].
    rewrite Hms. cbn [bind]. rewrite Hm. cbn [bind truediv]. rewrite Hkb.
    reflexivity.
Qed.

Lemma read_lines_conforms json_loads st f :
  Forall (conforms json_loads) f ->
  exists st', read_lines json_loads st f = Ok st'.
Proof.
  intros Hall. revert st. induction Hall as [|line f Hline Hall IH]; intros st.
  - exists st. reflexivity.
  - destruct (process_line_conforms json_loads st line Hline) as [st1 H1].
    destruct (IH st1) as [st' H']. exists st'.
    simpl. rewrite H1. exact H'.
Qed.

(** X13.  A run over lines of the documented shape never aborts: when
    every line is a JSON object whose [fields] object either lacks the
    latency or holds an integer latency and an integer length, of
    magnitude below [2^1023], next to a [span] with a frame and an
    object count, the record loop raises nothing, and neither does the
    construction of the table. *)
Theorem X13_conforming_log_loads (json_loads : string -> option pyval)
  (input_files : list (list string)) :
  Forall (conforms json_loads) (concat input_files) ->
  exists c df,
    load json_loads input_files = Ok c /\
    DataFrame c = Ok df /\
    main json_loads input_files = Ok (option_map aggregate df).
Proof.
  intros Hall.
  destruct (read_lines_conforms json_loads no_columns _ Hall) as [c Hc].
  assert (load json_loads input_files = Ok c) as Hload
    by (unfold load; rewrite read_files_concat; exact Hc).
  destruct (load_delta _ _ _ Hload) as (_ & H1 & H2 & H3 & _).
  exists c. unfold main, DataFrame. rewrite Hload. cbn [bind].
  rewrite (same_length_true c H1 H2 H3).
  destruct (frames c); eexists; repeat split; reflexivity.
Qed.

Lemma X13_conforming_log_loads_witness :
  exists c df,
    load Json.loads [[line_frame1; line_no_latency]; [line_frame2]] = Ok c /\
    DataFrame c = Ok df /\
    main Json.loads [[line_frame1; line_no_latency]; [line_frame2]]
      = Ok (option_map aggregate df).
Proof.
  apply (X13_conforming_log_loads Json.loads
           [[line_frame1; line_no_latency]; [line_frame2]]).
  simpl. repeat constructor.
  - exists record_frame1, fields_frame1.
    split; [vm_compute; reflexivity|]. split; [reflexivity|]. right.
    exists [("frame_count", PInt 1); ("object_count", PInt 10)],
           (PInt 1), (PInt 10), 5000000, 2048.
    repeat split; try reflexivity; lia.
  - exists record_no_latency, fields_no_latency.
    split; [vm_compute; reflexivity|]. split; [reflexivity|]. left.
    reflexivity.
  - eexists _, _.
    split; [vm_compute; reflexivity|]. split; [reflexivity|]. right.
    exists [("frame_count", PInt 2); ("object_count", PInt 10)],
           (PInt 2), (PInt 10), 15000000, 4096.
    repeat split; try reflexivity; lia.
Defined.

(** ** Lines that are not records *)

(** X14.  A line that is well-formed JSON but not an object (an array, a
    string, a number, [true], [false] or [null]) is not skipped: the
    subscript [data['fields']] of line 20 raises [TypeError] and every
    run that contains the line aborts. *)
Theorem X14_non_object_line_aborts (json_loads : string -> option pyval)
  (line : string) (v : pyval) :
  json_loads line = Some v ->
  (forall d, v <> PDict d) ->
  (forall st, process_line json_loads st line = Raise TypeError) /\
  forall input_files,
    In line (concat input_files) -> raises (main json_loads input_files).
Proof.
  intros Hl Hv.
  assert (forall st, process_line json_loads st line = Raise TypeError) as Hp.
  { intros st. rewrite (process_line_eq json_loads st line v Hl).
    destruct v; try reflexivity. destruct (Hv d). reflexivity. }
  split; [exact Hp|].
  intros input_files Hin. unfold main. apply bind_raises.
  apply (load_raises json_loads _ line Hin).
  intros st0. exists TypeError. apply Hp.
Qed.

Lemma X14_non_object_line_aborts_witness :
  (forall st, process_line Json.loads st line_array = Raise TypeError) /\
  forall input_files,
    In line_array (concat input_files) -> raises (main Json.loads input_files).
Proof.
  apply (X14_non_object_line_aborts Json.loads line_array
           (PList [PInt 1; PInt 2])).
  - vm_compute. reflexivity.
  - discriminate.
Defined.

Lemma skip_ws_blank s : blank s = true -> Json.skip_ws s = EmptyString.
Proof.
  induction s as [|c s IH]; [reflexivity|]. simpl.
  destruct (Json.is_ws c); [exact IH | discriminate].
Qed.

(** X15.  A blank line is not skipped either: the decoder rejects a line
    of white space only, the empty line included, so that a blank line
    anywhere in a log file aborts the run. *)
Theorem X15_blank_line_aborts (line : string) :
  blank line = true ->
  Json.loads line = None /\
  (forall st, process_line Json.loads st line = Raise JSONDecodeError) /\
  forall input_files,
    In line (concat input_files) -> raises (main Json.loads input_files).
Proof.
  intros Hb.
  assert (Json.loads line = None) as Hl.
  { unfold Json.loads. rewrite (skip_ws_blank line Hb).
    destruct (2 * String.length line + 2)%nat; reflexivity. }
  split; [exact Hl|]. split.
  - intros st. apply process_line_unparsed, Hl.
  - intros input_files Hin. unfold main. apply bind_raises.
    apply (load_raises Json.loads _ line Hin).
    intros st0. exists JSONDecodeError. apply process_line_unparsed, Hl.
Qed.

Lemma X15_blank_line_aborts_witness :
  Json.loads empty_line = None /\
  (forall st, process_line Json.loads st empty_line = Raise JSONDecodeError) /\
  forall input_files,
    In empty_line (concat input_files) -> raises (main Json.loads input_files).
Proof. apply (X15_blank_line_aborts empty_line). reflexivity. Defined.

(** ** The mean over two frames *)

Lemma add_comm x y : Float.add x y = Float.add y x.
Proof.
  destruct x as [[]|[]| |sx mx ex], y as [[]|[]| |sy my ey]; try reflexivity.
  unfold Float.add, SFadd.
  rewrite (Z.min_comm ey ex).
  rewrite (Z.add_comm (cond_Zopp sy _)). reflexivity.
Qed.

(** After one regular entry the compensation is zero. *)
Lemma acc_add_first_zero x : regular x -> acc_add acc0 x = Acc 1 x Float.zero.
Proof.
  intros Hx. pose proof (regular_not_nan x Hx) as Hnan.
  destruct Hx as (Hv & Hn & Hz).
  unfold acc_add. rewrite Hnan. cbn [acc0 sumx compensation nobs].
  rewrite (sub_zero x Hn), (add_zero x Hn Hz), (sub_zero x Hn).
  destruct x as [[]|[]| |s m e]; try congruence; try reflexivity.
  rewrite sub_diag_finite. reflexivity.
Qed.

(** The sum of two entries is one addition, their mean one addition and
    one division. *)
Lemma acc_add_two x y :
  regular x -> y <> S754_nan ->
  sumx (acc_add (acc_add acc0 x) y) = Float.add x y /\
  nobs (acc_add (acc_add acc0 x) y) = 2%nat.
Proof.
  intros Hx Hy. rewrite (acc_add_first_zero x Hx).
  unfold acc_add. cbn [sumx compensation nobs].
  assert (Float.is_nan y = false) as -> by (destruct y; simpl; congruence).
  rewrite (sub_zero y Hy). cbn [sumx nobs]. split; reflexivity.
Qed.

Lemma acc_mean_two x y :
  regular x -> y <> S754_nan ->
  acc_mean (acc_add (acc_add acc0 x) y) =
    Float.div (Float.add x y) (Float.of_Z 2).
Proof.
  intros Hx Hy. destruct (acc_add_two x y Hx Hy) as [Hs Hn].
  unfold acc_mean. rewrite Hn, Hs. reflexivity.
Qed.

(** X16.  For an object count that two frames measure once each, the
    final row holds the float mean of the two records: one addition and
    one division by two for the latency, and the same for the size. *)
Theorem X16_mean_of_two_frames (f1 f2 o : Z) (x1 x2 s1 s2 : float) :
  f1 <> f2 ->
  regular x1 -> regular x2 -> regular s1 -> regular s2 ->
  aggregate [Row f1 o x1 s1; Row f2 o x2 s2] =
    [AggRow o (Float.div (Float.add x1 x2) (Float.of_Z 2))
              (Float.div (Float.add s1 s2) (Float.of_Z 2))].
Proof.
  intros Hf Hx1 Hx2 Hs1 Hs2.
  assert (x1 <> S754_nan /\ x2 <> S754_nan /\
          s1 <> S754_nan /\ s2 <> S754_nan) as (Nx1 & Nx2 & Ns1 & Ns2)
    by (repeat split; [apply Hx1|apply Hx2|apply Hs1|apply Hs2]).
  rewrite aggregate_eq. unfold groupby_sum.
  cbv [groupby fold_left group_update row_key Frame Object_Count key_cmp
       fst snd].
  rewrite Z.compare_refl.
  destruct (Z.compare_spec f2 f1) as [Heq|Hlt|Hgt]; [congruence| |];
    cbn [map fst snd add_row Latency Size drop_Frame];
    rewrite !acc_sum_one by assumption;
    unfold groupby_mean;
    cbv [groupby fold_left group_update object_count];
    rewrite Z.compare_refl;
    cbn [map fst snd add_row latency_ms size_kb];
    rewrite !acc_mean_two by assumption.
  - rewrite (add_comm x2 x1), (add_comm s2 s1). reflexivity.
  - reflexivity.
Qed.

Lemma X16_mean_of_two_frames_witness :
  aggregate [Row 1 10 (Float.of_Z 5) (Float.of_Z 2);
             Row 2 10 (Float.of_Z 15) (Float.of_Z 4)] =
    [AggRow 10 (Float.div (Float.add (Float.of_Z 5) (Float.of_Z 15))
                          (Float.of_Z 2))
               (Float.div (Float.add (Float.of_Z 2) (Float.of_Z 4))
                          (Float.of_Z 2))].
Proof.
  apply (X16_mean_of_two_frames 1 2 10); [lia|regular_value..].
Defined.
